(** * The points and rewards ledger of the travel assistant

    A shallow embedding of [src/lib/gamification.ts] ([awardPoints],
    [calculateLevel], [checkUnlockedRewards], [getUserProgress],
    [getNextReward]) and of the [unlock_reward] handler of
    [gamificationTools], over the two tables [users] and [achievements]
    of [src/db/schema.ts].

    - JavaScript numbers that hold points and levels are modelled as [Z]
      (every call site passes an integer literal, the columns are SQLite
      integers); [Math.floor (x / 50)] is [x / 50] on [Z], which rounds
      towards minus infinity.
    - The [users] table is a finite map from the primary key [id] to the
      remaining columns; the [achievements] table is the list of its rows
      in insertion order.  The timestamp columns and the random [id] of
      an achievement (a fresh UUID, so its primary key never rejects an
      insert) are left out.
    - An [async] function is a tree of database operations ([Prog]): each
      [await] of a query is one node.  The tree is run in one piece by
      [run] (a call that nothing interleaves with) or one [await] at a
      time by [step], which [run_schedule] interleaves over a pool of
      calls in flight. *)

From Stdlib Require Import Ascii.
From stdpp Require Import base strings list gmap pretty.

Local Open Scope Z_scope.

(** ** Tables *)

(** A row of [users], without its key.  [total_points] and [level] are
    nullable columns. *)
Record UserRow := mkUserRow {
  email : string;
  name : string;
  totalPoints : option Z;
  level : option Z
}.

(** A row of [achievements]; [user_id] is a nullable column. *)
Record Achievement := mkAchievement {
  userId : option string;
  achievementType : string;
  pointsRequired : Z
}.

Record DB := mkDB {
  users : gmap string UserRow;
  achievements : list Achievement
}.

(** ** The query builder

    [db.select().from(achievements)] builds a query object; each
    [.where(c)] call assigns the query's single [where] slot (drizzle's
    [this.config.where = where]), so a later call replaces the condition
    of an earlier one. *)

Inductive Cond :=
| eq_userId (v : string)
| eq_achievementType (v : string).

Record SelectQuery := mkQuery { config_where : option Cond }.

Definition select_from_achievements : SelectQuery := mkQuery None.

Definition where_ (q : SelectQuery) (c : Cond) : SelectQuery := mkQuery (Some c).

Definition matches (c : Cond) (a : Achievement) : bool :=
  match c with
  | eq_userId v => bool_decide (userId a = Some v)
  | eq_achievementType v => bool_decide (achievementType a = v)
  end.

Definition rows_of (q : SelectQuery) (t : list Achievement) : list Achievement :=
  match config_where q with
  | None => t
  | Some c => List.filter (matches c) t
  end.

(** ** Database operations, one per awaited query *)

Inductive DbOp : Type -> Type :=
| SelectUserById (uid : string) : DbOp (option UserRow)
| InsertUser (uid : string) (row : UserRow) : DbOp unit
| UpdateUser (uid : string) (total lvl : Z) : DbOp unit
| SelectAchievements (q : SelectQuery) : DbOp (list Achievement)
| GetAchievement (q : SelectQuery) : DbOp (option Achievement)
| InsertAchievement (row : Achievement) : DbOp unit.

Definition email_taken (e : string) (us : gmap string UserRow) : bool :=
  existsb (fun kv => bool_decide (email (snd kv) = e)) (map_to_list us).

Definition set_points (total lvl : Z) (r : UserRow) : UserRow :=
  mkUserRow (email r) (name r) (Some total) (Some lvl).

(** The message of the error that a rejected insert into [users] throws.
    The query builder wraps the error of the database: the message is
    ["Failed query: "], the statement, a line break, ["params: "] and the
    parameters joined by commas; which constraint failed is told by the
    cause of the error only, which no code of the repository reads.  No
    property below states this text: where a call fails, it is stated to
    fail with some message. *)
Definition nullable_text (x : option Z) : string :=
  match x with Some n => pretty n | None => "" end.

Definition failed_insert_users (uid : string) (row : UserRow) : string :=
  let q := String (ascii_of_nat 34) "" in
  let column (c : string) := q +:+ c +:+ q in
  "Failed query: insert into " +:+ column "users" +:+ " ("
    +:+ column "id" +:+ ", " +:+ column "email" +:+ ", " +:+ column "name" +:+ ", "
    +:+ column "total_points" +:+ ", " +:+ column "level" +:+ ", "
    +:+ column "created_at" +:+ ", " +:+ column "updated_at"
    +:+ ") values (?, ?, ?, ?, ?, CURRENT_TIMESTAMP, CURRENT_TIMESTAMP)"
    +:+ String (ascii_of_nat 10) "params: "
    +:+ uid +:+ "," +:+ email row +:+ "," +:+ name row +:+ ","
    +:+ nullable_text (totalPoints row) +:+ "," +:+ nullable_text (level row).

(** [exec op db] is the answer of the database (an error message or the
    rows) and the database afterwards.  Inserting a user is rejected
    when the unique index on [email] or the primary key is violated (the
    index on [email] is the one reported when both are); an update of a
    key that has no row changes nothing.  The foreign key of an
    achievement row is not checked: the only insert follows a read of
    its user, and no user row is ever deleted. *)
Definition exec {X} (op : DbOp X) (db : DB) : (string + X) * DB :=
  match op in DbOp X return (string + X) * DB with
  | SelectUserById uid => (inr (users db !! uid), db)
  | InsertUser uid row =>
      if email_taken (email row) (users db) then
        (inl (failed_insert_users uid row), db)
      else if bool_decide (is_Some (users db !! uid)) then
        (inl (failed_insert_users uid row), db)
      else (inr tt, mkDB (<[uid := row]> (users db)) (achievements db))
  | UpdateUser uid total lvl =>
      (inr tt, mkDB (alter (set_points total lvl) uid (users db)) (achievements db))
  | SelectAchievements q => (inr (rows_of q (achievements db)), db)
  | GetAchievement q => (inr (head (rows_of q (achievements db))), db)
  | InsertAchievement row => (inr tt, mkDB (users db) (achievements db ++ [row]))
  end.

(** ** Asynchronous programs *)

Inductive Prog (A : Type) : Type :=
| Ret (a : A)
| Throw (msg : string)
| Await {X : Type} (op : DbOp X) (k : X -> Prog A) (h : string -> Prog A).

Arguments Ret {A} a.
Arguments Throw {A} msg.
Arguments Await {A X} op k h.

Fixpoint bind {A B} (p : Prog A) (f : A -> Prog B) : Prog B :=
  match p with
  | Ret a => f a
  | Throw e => Throw e
  | Await op k h => Await op (fun x => bind (k x) f) (fun e => bind (h e) f)
  end.

(** [await op]: a rejected promise throws at the [await]. *)
Definition await {X} (op : DbOp X) : Prog X := Await op Ret Throw.

(** [try { p } catch (error) { h error.message }] *)
Fixpoint try_catch {A} (p : Prog A) (h : string -> Prog A) : Prog A :=
  match p with
  | Ret a => Ret a
  | Throw e => h e
  | Await op k h' => Await op (fun x => try_catch (k x) h) (fun e => try_catch (h' e) h)
  end.

Notation "'let*' x ':=' p 'in' q" := (bind p (fun x => q))
  (at level 10, x name, p at level 100, q at level 200).

Inductive Outcome (A : Type) : Type :=
| Ok (a : A)
| Err (msg : string).

Arguments Ok {A} a.
Arguments Err {A} msg.

(** One call run from start to end with nothing in between. *)
Fixpoint run {A} (p : Prog A) (db : DB) : Outcome A * DB :=
  match p with
  | Ret a => (Ok a, db)
  | Throw e => (Err e, db)
  | Await op k h =>
      match exec op db with
      | (inr x, db') => run (k x) db'
      | (inl e, db') => run (h e) db'
      end
  end.

(** One [await] of a call in flight. *)
Definition step {A} (p : Prog A) (db : DB) : Prog A * DB :=
  match p with
  | Await op k h =>
      match exec op db with
      | (inr x, db') => (k x, db')
      | (inl e, db') => (h e, db')
      end
  | _ => (p, db)
  end.

(** A pool of calls in flight; the schedule names the call that performs
    its next [await]. *)
Fixpoint run_schedule {A} (sched : list nat) (pool : list (Prog A)) (db : DB)
  : list (Prog A) * DB :=
  match sched with
  | [] => (pool, db)
  | i :: sched' =>
      match pool !! i with
      | Some p =>
          let '(p', db') := step p db in
          run_schedule sched' (<[i := p']> pool) db'
      | None => run_schedule sched' pool db
      end
  end.

(** ** [src/lib/gamification.ts] *)

Record AwardResult := mkAwardResult {
  newTotal : Z;
  levelsGained : Z;
  unlockedRewards : list string
}.

(** [x || d] on a nullable number: [null] and [0] are falsy. *)
Definition or_else (x : option Z) (d : Z) : Z :=
  match x with
  | Some v => if bool_decide (v = 0) then d else v
  | None => d
  end.

Definition calculateLevel (totalPoints : Z) : Z := totalPoints / 50 + 1.

Record Reward := mkReward {
  points : Z;
  type : string;
  reward_name : string
}.

Definition rewardThresholds : list Reward :=
  [ mkReward 50 "restaurant_recommendations" "Restaurant Finder";
    mkReward 100 "hidden_gems" "Hidden Gems Discovery";
    mkReward 200 "food_specialties" "Local Food Specialties";
    mkReward 300 "photography_spots" "Photography Spots" ].

(** The body of the [for] loop of [checkUnlockedRewards];
    [newlyUnlocked] is the array the loop pushes to. *)
Fixpoint checkUnlockedRewards_loop (rewards : list Reward) (uid : string)
    (oldTotal newTotal : Z) (newlyUnlocked : list string) : Prog (list string) :=
  match rewards with
  | [] => Ret newlyUnlocked
  | reward :: rest =>
      if (oldTotal <? points reward) && (newTotal >=? points reward) then
        let* existingAchievement :=
          await (GetAchievement
                   (where_ (where_ select_from_achievements (eq_userId uid))
                           (eq_achievementType (type reward)))) in
        match existingAchievement with
        | None =>
            let* _ := await (InsertAchievement
                          (mkAchievement (Some uid) (type reward) (points reward))) in
            checkUnlockedRewards_loop rest uid oldTotal newTotal
              (newlyUnlocked ++ [reward_name reward])
        | Some _ => checkUnlockedRewards_loop rest uid oldTotal newTotal newlyUnlocked
        end
      else checkUnlockedRewards_loop rest uid oldTotal newTotal newlyUnlocked
  end.

Definition checkUnlockedRewards (uid : string) (oldTotal newTotal : Z)
  : Prog (list string) :=
  checkUnlockedRewards_loop rewardThresholds uid oldTotal newTotal [].

Definition awardPoints (uid : string) (pts : Z) (action : string)
  : Prog AwardResult :=
  try_catch
    (let* currentUser := await (SelectUserById uid) in
     match currentUser with
     | None =>
         let* _ := await (InsertUser uid
                       (mkUserRow ("user" +:+ uid +:+ "@example.com")
                                  ("User " +:+ uid) (Some pts) (Some 1))) in
         Ret (mkAwardResult pts 0 [])
     | Some currentUser =>
         let oldTotal := or_else (totalPoints currentUser) 0 in
         let newTotal := oldTotal + pts in
         let oldLevel := or_else (level currentUser) 1 in
         let newLevel := calculateLevel newTotal in
         let levelsGained := newLevel - oldLevel in
         let* _ := await (UpdateUser uid newTotal newLevel) in
         let* unlockedRewards := checkUnlockedRewards uid oldTotal newTotal in
         Ret (mkAwardResult newTotal levelsGained unlockedRewards)
     end)
    (fun error => Throw ("Failed to award points: " +:+ error)).

Record NextReward := mkNextReward {
  nr_name : string;
  pointsNeeded : Z
}.

Record Progress := mkProgress {
  p_points : Z;
  p_level : Z;
  p_achievements : list string;
  nextReward : NextReward
}.

(** The table [rewards] local to [getNextReward]. *)
Definition rewards : list (Z * string) :=
  [ (50, "Restaurant Finder"%string);
    (100, "Hidden Gems Discovery"%string);
    (200, "Local Food Specialties"%string);
    (300, "Photography Spots"%string) ].

Fixpoint getNextReward_loop (rs : list (Z * string)) (currentPoints : Z) : NextReward :=
  match rs with
  | [] => mkNextReward "All rewards unlocked!" 0
  | reward :: rest =>
      if currentPoints <? fst reward then
        mkNextReward (snd reward) (fst reward - currentPoints)
      else getNextReward_loop rest currentPoints
  end.

Definition getNextReward (currentPoints : Z) : NextReward :=
  getNextReward_loop rewards currentPoints.

Definition getUserProgress (uid : string) : Prog Progress :=
  try_catch
    (let* user := await (SelectUserById uid) in
     match user with
     | None => Ret (mkProgress 0 1 [] (mkNextReward "Restaurant Finder" 50))
     | Some user =>
         let* userAchievements :=
           await (SelectAchievements
                    (where_ select_from_achievements (eq_userId uid))) in
         let totalPoints := or_else (totalPoints user) 0 in
         let nextReward := getNextReward totalPoints in
         Ret (mkProgress totalPoints (or_else (level user) 1)
                (map achievementType userAchievements) nextReward)
     end)
    (fun error => Throw ("Failed to get user progress: " +:+ error)).

(** ** The [unlock_reward] handler of [gamificationTools] *)

Record RewardContent := mkRewardContent {
  title : string;
  description : string;
  features : list string;
  bonus : string
}.

Definition generateRewardContent (rewardType : string) : RewardContent :=
  if bool_decide (rewardType = "restaurant_recommendations") then
    mkRewardContent "🍽️ Premium Restaurant Finder"
      "Access to curated restaurant recommendations based on your travel destinations"
      [ "Personalized dining suggestions"; "Local hidden gem restaurants";
        "Chef recommendations"; "Dietary restriction filters";
        "Price range matching" ]%string
      "Unlock exclusive dining experiences and local food tours"
  else if bool_decide (rewardType = "hidden_gems") then
    mkRewardContent "💎 Hidden Gems Discovery"
      "Discover secret locations and off-the-beaten-path experiences"
      [ "Secret viewpoints and photo spots"; "Local-only experiences";
        "Hidden historical sites"; "Underground culture spots";
        "Insider access to exclusive locations" ]%string
      "Connect with local guides for authentic experiences"
  else if bool_decide (rewardType = "food_specialties") then
    mkRewardContent "🥘 Local Food Specialties Expert"
      "Master the art of finding authentic local cuisine"
      [ "Traditional recipe recommendations"; "Local market guides";
        "Seasonal food calendars"; "Cooking class connections";
        "Food festival information" ]%string
      "Access to local cooking classes and food tours"
  else if bool_decide (rewardType = "photography_spots") then
    mkRewardContent "📸 Photography Spots Master"
      "Unlock the best photography locations and techniques"
      [ "Golden hour spot recommendations"; "Unique angle suggestions";
        "Local photography workshops"; "Equipment rental discounts";
        "Photo editing tips" ]%string
      "Connect with local photographers for guided photo tours"
  else
    mkRewardContent "Unknown Reward" "Reward details not available" []
      "Keep exploring!".

(** [rewardRequirements[rewardType]]; [None] is [undefined].  (The names
    that every JavaScript object inherits, such as [toString], are not
    modelled: a reward type is one of the schema's enumeration or an
    unknown key.) *)
Definition rewardRequirements (rewardType : string) : option Z :=
  if bool_decide (rewardType = "restaurant_recommendations") then Some 50
  else if bool_decide (rewardType = "hidden_gems") then Some 100
  else if bool_decide (rewardType = "food_specialties") then Some 200
  else if bool_decide (rewardType = "photography_spots") then Some 300
  else None.

(** [s.replace('_', ' ')]: the first underscore only. *)
Fixpoint replace_underscore (s : string) : string :=
  match s with
  | EmptyString => EmptyString
  | String c rest =>
      if bool_decide (c = "_"%char) then String " "%char rest
      else String c (replace_underscore rest)
  end.

(** The three shapes of the object the handler returns (without its
    [timestamp]). *)
Inductive UnlockResponse :=
| InsufficientPoints (error : string) (requiredPoints currentPoints needed : Z)
| Unlocked (uid rewardType : string) (rewardContent : RewardContent)
    (message : string)
| Failure (error : string) (uid : string).

Definition unlock_reward (uid rewardType : string) : Prog UnlockResponse :=
  try_catch
    (if bool_decide (uid = "") || bool_decide (uid = "anonymous") then
       Throw "User ID is required to unlock rewards"
     else
       let* progress := getUserProgress uid in
       let requiredPoints := rewardRequirements rewardType in
       match requiredPoints with
       | Some requiredPoints =>
           if p_points progress <? requiredPoints then
             Ret (InsufficientPoints
                    ("Insufficient points. Need " +:+ pretty requiredPoints
                       +:+ " points, you have " +:+ pretty (p_points progress)
                       +:+ " points.")
                    requiredPoints (p_points progress)
                    (requiredPoints - p_points progress))
           else
             Ret (Unlocked uid rewardType (generateRewardContent rewardType)
                    ("🎉 Congratulations! You've unlocked "
                       +:+ replace_underscore rewardType +:+ "!"))
       | None =>
           Ret (Unlocked uid rewardType (generateRewardContent rewardType)
                  ("🎉 Congratulations! You've unlocked "
                     +:+ replace_underscore rewardType +:+ "!"))
       end)
    (fun error => Ret (Failure error uid)).

(** ** Calls one after another, and what the tables hold *)

Fixpoint run_seq {A} (calls : list (Prog A)) (db : DB) : list (Outcome A) * DB :=
  match calls with
  | [] => ([], db)
  | p :: rest =>
      let '(o, db1) := run p db in
      let '(os, db2) := run_seq rest db1 in
      (o :: os, db2)
  end.

Definition succeeded {A} (o : Outcome A) : bool :=
  match o with Ok _ => true | Err _ => false end.

(** The calls [awardPoints(db, uid, points, action)] for a list of
    [(points, action)]. *)
Definition award_calls (uid : string) (awards : list (Z * string))
  : list (Prog AwardResult) :=
  map (fun a => awardPoints uid (fst a) (snd a)) awards.

(** A call given as [(userId, points, action)]. *)
Definition award_call (c : string * Z * string) : Prog AwardResult :=
  awardPoints c.1.1 c.1.2 c.2.

(** The row that the creation path of [awardPoints] inserts. *)
Definition new_user_row (uid : string) (pts : Z) : UserRow :=
  mkUserRow ("user" +:+ uid +:+ "@example.com") ("User " +:+ uid) (Some pts) (Some 1).

(** The settled promise of a finished call. *)
Definition settled {A} (o : Outcome A) : Prog A :=
  match o with Ok a => Ret a | Err e => Throw e end.

(** The total of a user as every reader of the table takes it:
    [user.totalPoints || 0], and [0] without a row. *)
Definition stored_total (db : DB) (uid : string) : Z :=
  match users db !! uid with
  | Some row => or_else (totalPoints row) 0
  | None => 0
  end.

Definition stored_level (db : DB) (uid : string) : option Z :=
  match users db !! uid with
  | Some row => level row
  | None => None
  end.

Definition sum_points (ps : list Z) : Z := foldr Z.add 0 ps.

Definition crossed (oldTotal newTotal : Z) (reward : Reward) : bool :=
  (oldTotal <? points reward) && (newTotal >=? points reward).

(** Some user holds an achievement of this type. *)
Definition type_held (t : string) (rows : list Achievement) : bool :=
  existsb (fun a => bool_decide (achievementType a = t)) rows.

(** The rows of one user and one type. *)
Definition records_of (uid t : string) (rows : list Achievement) : list Achievement :=
  List.filter
    (fun a => bool_decide (userId a = Some uid) && bool_decide (achievementType a = t))
    rows.

Definition at_most_one_per_pair (rows : list Achievement) : Prop :=
  forall uid t, (length (records_of uid t rows) <= 1)%nat.

(** The entries for which one run of the loop inserts a row, in order. *)
Fixpoint newly (rs : list Reward) (uid : string) (oldTotal newTotal : Z)
    (rows : list Achievement) : list Reward :=
  match rs with
  | [] => []
  | reward :: rest =>
      if crossed oldTotal newTotal reward && negb (type_held (type reward) rows) then
        reward :: newly rest uid oldTotal newTotal
                    (rows ++ [mkAchievement (Some uid) (type reward) (points reward)])
      else newly rest uid oldTotal newTotal rows
  end.

Definition achievement_for (uid : string) (reward : Reward) : Achievement :=
  mkAchievement (Some uid) (type reward) (points reward).

(** ** Callers of the ledger *)

(** [ensureUserExists] of the tool modules ([weather.ts], [expenses.ts],
    [itinerary.ts]: three copies with the same queries).  It returns the
    row it found or the stub [{ id: userId }] of the row it inserted. *)
Inductive EnsuredUser :=
| existingUser (row : UserRow)
| createdUser (id : string).

Definition ensureUserExists (uid : string) : Prog EnsuredUser :=
  try_catch
    (let* existing := await (SelectUserById uid) in
     match existing with
     | Some row => Ret (existingUser row)
     | None =>
         let* _ := await (InsertUser uid
                            (mkUserRow (uid +:+ "@example.com") ("User " +:+ uid)
                                       (Some 0) (Some 1))) in
         Ret (createdUser uid)
     end)
    (fun error => Throw ("Failed to ensure user exists: " +:+ error)).

(** The row that [ensureUserExists] inserts. *)
Definition ensured_row (uid : string) : UserRow :=
  mkUserRow (uid +:+ "@example.com") ("User " +:+ uid) (Some 0) (Some 1).

(** The [get_user_progress] handler of [gamificationTools] (its answer
    without the [timestamp]). *)
Inductive ProgressResponse :=
| ProgressOk (uid : string) (progress : Progress)
| ProgressFailure (error : string) (uid : string).

Definition get_user_progress (uid : string) : Prog ProgressResponse :=
  try_catch
    (if bool_decide (uid = "") || bool_decide (uid = "anonymous") then
       Throw "User ID is required to get progress"
     else
       let* progress := getUserProgress uid in
       Ret (ProgressOk uid progress))
    (fun error => Ret (ProgressFailure error uid)).

(** The award block of the [get_weather] handler ([weather.ts], from
    [let pointsResult = null] to the end of its [catch]): the value of
    [pointsResult] is [null], the result of [awardPoints], or the object
    of the [catch] branch. *)
Inductive PointsResult :=
| awarded (r : AwardResult)
| notAwarded (newTotal : Z) (unlockedRewards : list string) (message : string).

Definition get_weather_points (uid location : string) : Prog (option PointsResult) :=
  if negb (bool_decide (uid = "")) && negb (bool_decide (uid = "anonymous")) then
    try_catch
      (let* _ := ensureUserExists uid in
       let* r := awardPoints uid 5 ("weather_check_" +:+ location) in
       Ret (Some (awarded r)))
      (fun error =>
         Ret (Some (notAwarded 0 []
                      "Weather data retrieved, but points could not be awarded. User may need to be created first.")))
  else Ret None.

(** The [gamification] field of the answer of [get_weather]. *)
Record Gamification := mkGamification {
  pointsAwarded : Z;
  g_newTotal : Z;
  g_level : option string;
  g_unlockedRewards : list string;
  g_message : option string
}.

Definition get_weather_gamification (pointsResult : option PointsResult)
  : option Gamification :=
  match pointsResult with
  | None => None
  | Some (awarded r) =>
      Some (mkGamification 5 (newTotal r)
              (if negb (bool_decide (levelsGained r = 0)) && (levelsGained r >? 0) then
                 Some ("Level up! Now level " +:+ pretty (newTotal r))
               else None)
              (unlockedRewards r) None)
  | Some (notAwarded total unlocked message) =>
      Some (mkGamification 5 total None unlocked (Some message))
  end.

(** ** [src/tools/itinerary.ts]: the generated plan

    Strings are sequences of UTF-8 bytes.  Durations and day numbers are
    integers, like the points of the ledger. *)

(** [s.split(',')[0]] *)
Fixpoint before_comma (s : string) : string :=
  match s with
  | EmptyString => EmptyString
  | String c rest =>
      if bool_decide (c = ","%char) then EmptyString
      else String c (before_comma rest)
  end.

(** The white space and line terminators that [trim] removes, by the
    bytes of their UTF-8 encoding: U+0009 to U+000D and U+0020; U+00A0;
    U+1680, U+2000 to U+200A, U+2028, U+2029, U+202F, U+205F, U+3000 and
    U+FEFF. *)
Definition ws1 (c : ascii) : bool :=
  let n := nat_of_ascii c in
  ((9 <=? n) && (n <=? 13) || (n =? 32))%nat.

Definition ws2 (c1 c2 : ascii) : bool :=
  ((nat_of_ascii c1 =? 194) && (nat_of_ascii c2 =? 160))%nat.

Definition ws3 (c1 c2 c3 : ascii) : bool :=
  let a := nat_of_ascii c1 in
  let b := nat_of_ascii c2 in
  let c := nat_of_ascii c3 in
  ((a =? 225) && (b =? 154) && (c =? 128)
   || (a =? 226) && (b =? 128)
      && ((128 <=? c) && (c <=? 138) || (c =? 168) || (c =? 169) || (c =? 175))
   || (a =? 226) && (b =? 129) && (c =? 159)
   || (a =? 227) && (b =? 128) && (c =? 128)
   || (a =? 239) && (b =? 187) && (c =? 191))%nat.

(** [strip false] removes leading white space; [strip true] does the
    same on a reversed string, where the bytes of a character come last
    byte first. *)
Fixpoint strip (reversed : bool) (s : string) : string :=
  match s with
  | EmptyString => EmptyString
  | String c1 r1 =>
      if ws1 c1 then strip reversed r1
      else
        match r1 with
        | EmptyString => s
        | String c2 r2 =>
            if (if reversed then ws2 c2 c1 else ws2 c1 c2) then strip reversed r2
            else
              match r2 with
              | EmptyString => s
              | String c3 r3 =>
                  if (if reversed then ws3 c3 c2 c1 else ws3 c1 c2 c3)
                  then strip reversed r3
                  else s
              end
        end
  end.

(** [s.trim()] *)
Definition trim (s : string) : string :=
  String.rev (strip true (String.rev (strip false s))).

(** [list.includes(x)] *)
Definition includes (l : list string) (x : string) : bool := bool_decide (x ∈ l).

Record Activity := mkActivity {
  act_time : string;
  act_activity : string;
  act_duration : string;
  act_type : string;
  act_notes : string
}.

Record DayPlan := mkDayPlan {
  day : Z;
  date : string;
  theme : string;
  activities : list Activity
}.

Definition generateDayPlan (day : Z) (destination : string) (duration : Z)
    (interests : list string) (budget travelStyle : string) : DayPlan :=
  let activities : list Activity := [] in
  let cityName := trim (before_comma destination) in
  (* Morning activity *)
  let activities :=
    if includes interests "culture" || includes interests "history" then
      activities ++ [mkActivity "09:00"
                       ("Visit " +:+ cityName +:+ " Museum or Historic Site")
                       "2-3 hours" "cultural"
                       "Perfect morning activity to learn about local culture"]
    else if includes interests "nature" then
      activities ++ [mkActivity "09:00"
                       ("Explore " +:+ cityName +:+ " Park or Gardens")
                       "2-3 hours" "nature" "Enjoy fresh air and natural beauty"]
    else if includes interests "adventure" then
      activities ++ [mkActivity "09:00" (cityName +:+ " Adventure Activity")
                       "2-3 hours" "adventure"
                       "Start your day with an exciting adventure"]
    else activities in
  (* Lunch *)
  let activities :=
    activities ++ [mkActivity "12:30"
                     (if includes interests "food" then "Local Food Tour"
                      else "Traditional Restaurant")
                     "1-2 hours" "dining"
                     (if bool_decide (budget = "luxury") then "Fine dining experience"
                      else "Authentic local cuisine")] in
  (* Afternoon activity *)
  let activities :=
    if includes interests "shopping" then
      activities ++ [mkActivity "15:00" (cityName +:+ " Shopping District")
                       "2-3 hours" "shopping" "Explore local markets and boutiques"]
    else if includes interests "art" then
      activities ++ [mkActivity "15:00" (cityName +:+ " Art Gallery or Studio")
                       "2-3 hours" "cultural" "Discover local and international art"]
    else if includes interests "adventure" then
      activities ++ [mkActivity "15:00" (cityName +:+ " Adventure Experience")
                       "2-3 hours" "adventure"
                       "Continue your adventurous exploration"]
    else activities in
  (* Evening activity *)
  let activities :=
    if includes interests "nightlife" && negb (bool_decide (travelStyle = "family")) then
      activities ++ [mkActivity "19:00" "Evening Entertainment" "3-4 hours"
                       "nightlife" "Experience local nightlife and entertainment"]
    else
      activities ++ [mkActivity "19:00" "Sunset Viewing & Dinner" "2-3 hours"
                       "relaxation" "Peaceful evening with great views"] in
  mkDayPlan day ""
    (if day =? 1 then "Arrival & Exploration"
     else if day =? duration then "Final Adventures"
     else "Discover " +:+ cityName)
    activities.

Record Recommendations := mkRecommendations {
  mustSee : list string;
  dining : list string;
  transportation : list string
}.

Definition generateRecommendations (destination : string) (interests : list string)
    (budget : string) : Recommendations :=
  let cityName := trim (before_comma destination) in
  mkRecommendations
    [ cityName +:+ " Historic Center"; "Famous " +:+ cityName +:+ " Landmark";
      "Local " +:+ cityName +:+ " Market" ]
    (if includes interests "food" then
       [ "Local specialty restaurants"; "Street food tours"; "Cooking classes" ]%string
     else [ "Traditional cuisine"; "Popular local restaurants" ]%string)
    (if bool_decide (budget = "luxury") then
       [ "Private transfers"; "Premium public transport" ]%string
     else [ "Public transportation"; "Walking and cycling"; "Shared rides" ]%string).

Record BudgetBreakdown := mkBudgetBreakdown {
  b_accommodation : Z;
  b_food : Z;
  b_activities : Z;
  b_transportation : Z
}.

Record BudgetEstimate := mkBudgetEstimate {
  totalEstimate : Z;
  breakdown : BudgetBreakdown;
  currency : string;
  note : string
}.

(** The property names that every object literal inherits from
    [Object.prototype]. *)
Definition object_prototype_keys : list string :=
  [ "constructor"; "hasOwnProperty"; "isPrototypeOf"; "propertyIsEnumerable";
    "toLocaleString"; "toString"; "valueOf"; "__proto__"; "__defineGetter__";
    "__defineSetter__"; "__lookupGetter__"; "__lookupSetter__" ]%string.

(** The result of reading a property of an object literal: a value of
    the literal, a value inherited from [Object.prototype], or
    [undefined]. *)
Inductive Lookup (A : Type) : Type :=
| own (a : A)
| inherited
| undefined.

Arguments own {A} a.
Arguments inherited {A}.
Arguments undefined {A}.

(** [budgetMultipliers[budget]]: base, accommodation, food, activities. *)
Definition budgetMultipliers (budget : string) : Lookup (Z * Z * Z * Z) :=
  if bool_decide (budget = "budget") then own (50, 30, 25, 20)
  else if bool_decide (budget = "mid-range") then own (100, 80, 50, 40)
  else if bool_decide (budget = "luxury") then own (200, 180, 100, 80)
  else if includes object_prototype_keys budget then inherited
  else undefined.

(** [Math.round(n * styleMultiplier)] for an integer [n], where the
    multiplier is 1.5 for [family], 0.8 for [group] and 1.0 otherwise.
    [Math.round] rounds to the nearest integer, halves upwards.  The
    products by 1.5 and by 1.0 are exact in floating point; 0.8 times an
    integer is never nearer than 0.1 to a half, far more than the
    rounding error of the product for any realistic duration. *)
Definition round_by_style (n : Z) (travelStyle : string) : Z :=
  if bool_decide (travelStyle = "family") then (3 * n + 1) / 2
  else if bool_decide (travelStyle = "group") then (8 * n + 5) / 10
  else n.

(** What [generateBudgetEstimate] does: it returns an estimate; or, for
    a multiplier inherited from [Object.prototype], whose [base] and
    other fields are [undefined], the estimate whose five numbers are all
    [NaN]; or it throws the [TypeError] of reading [undefined.base]. *)
Inductive BudgetResult :=
| estimateOf (e : BudgetEstimate)
| estimateNaN
| budgetTypeError.

Definition generateBudgetEstimate (duration : Z) (budget travelStyle : string)
  : BudgetResult :=
  match budgetMultipliers budget with
  | undefined => budgetTypeError
  | inherited => estimateNaN
  | own (base, accommodation, food, activities) =>
      estimateOf
        (mkBudgetEstimate
           (round_by_style (duration * base) travelStyle)
           (mkBudgetBreakdown
              (round_by_style (duration * accommodation) travelStyle)
              (round_by_style (duration * food) travelStyle)
              (round_by_style (duration * activities) travelStyle)
              (round_by_style (duration * 15) travelStyle))
           "USD"
           "Estimates vary based on season, location, and personal preferences")
  end.

Definition generateLocationTips (destination : string) (interests : list string)
  : list string :=
  let tips := [ "Check local weather and pack accordingly";
                "Learn basic local phrases or greetings";
                "Research local customs and etiquette" ]%string in
  let tips := if includes interests "food"
              then tips ++ ["Try local street food and traditional dishes"%string]
              else tips in
  let tips := if includes interests "culture"
              then tips ++ ["Visit during local festivals or cultural events"%string]
              else tips in
  let tips := if includes interests "nature"
              then tips ++ ["Bring comfortable walking shoes for outdoor activities"%string]
              else tips in
  tips.

Record SmartItinerary := mkSmartItinerary {
  overview : string;
  dailyPlan : list DayPlan;
  recommendations : Recommendations;
  budgetEstimate : BudgetResult;
  tips : list string
}.

(** [generateSmartItinerary]: the days 1 to [duration] in order (the
    geocoding result is not used by the function).  [inl] is the message
    of the error thrown. *)
Definition generateSmartItinerary (destination : string) (duration : Z)
    (interests : list string) (budget travelStyle : string)
  : string + SmartItinerary :=
  let dailyPlan :=
    map (fun day => generateDayPlan day destination duration interests budget travelStyle)
        (seqZ 1 duration) in
  match generateBudgetEstimate duration budget travelStyle with
  | budgetTypeError => inl "Cannot read properties of undefined (reading 'base')"%string
  | estimate =>
      inr (mkSmartItinerary
             ("A " +:+ pretty duration +:+ "-day " +:+ budget +:+ " adventure in "
                +:+ destination +:+ ", perfect for " +:+ travelStyle
                +:+ " travelers interested in "
                +:+ String.concat " and " interests +:+ ".")
             dailyPlan
             (generateRecommendations destination interests budget)
             estimate
             (generateLocationTips destination interests))
  end.

(** [optimizeActivities].  [array.sort(compare)] is the stable sort by
    insertion; [localeCompare] is the comparison of the host, a
    parameter. *)
Section Optimize.

Context (localeCompare : string -> string -> Z).

Fixpoint sort_insert (x : Activity) (sorted : list Activity) : list Activity :=
  match sorted with
  | [] => [x]
  | y :: rest =>
      if localeCompare (act_time x) (act_time y) <? 0 then x :: y :: rest
      else y :: sort_insert x rest
  end.

Definition sort_by_time (l : list Activity) : list Activity :=
  foldl (fun sorted x => sort_insert x sorted) [] l.

Definition optimizeActivities (plan : list DayPlan) (goal : string) : list DayPlan :=
  if bool_decide (goal = "minimize_travel_time") then
    map (fun d => mkDayPlan (day d) (date d) (theme d) (sort_by_time (activities d)))
        plan
  else if bool_decide (goal = "maximize_experiences") then
    map (fun d => mkDayPlan (day d) (date d) (theme d)
                    (activities d
                       ++ [mkActivity "16:00" "Hidden Local Gem" "1-2 hours" "discovery"
                             "Explore off-the-beaten-path locations"]))
        plan
  else if bool_decide (goal = "reduce_costs") then
    map (fun d => mkDayPlan (day d) (date d) (theme d)
                    (map (fun a => mkActivity (act_time a) (act_activity a)
                                     (act_duration a) (act_type a)
                                     (act_notes a +:+ " (Budget-friendly option)"))
                         (activities d)))
        plan
  else if bool_decide (goal = "balance_activities") then
    map (fun d => mkDayPlan (day d) (date d) ("Balanced " +:+ theme d) (activities d))
        plan
  else plan.

End Optimize.

(** The times of the activities of a day, in order. *)
Definition times (d : DayPlan) : list string := map act_time (activities d).

(** The interests for which a day gets a morning and an afternoon
    activity. *)
Definition has_morning (interests : list string) : bool :=
  includes interests "culture" || includes interests "history"
  || includes interests "nature" || includes interests "adventure".

Definition has_afternoon (interests : list string) : bool :=
  includes interests "shopping" || includes interests "art"
  || includes interests "adventure".

(** The user ids that pass the guard of the handlers. *)
Definition valid_user_id (uid : string) : Prop := uid <> "" /\ uid <> "anonymous".

Definition unlocked_message (rewardType : string) : string :=
  "🎉 Congratulations! You've unlocked " +:+ replace_underscore rewardType +:+ "!".

(** * Properties *)

(** ** Running programs *)

Lemma run_bind {A B} (p : Prog A) (f : A -> Prog B) db :
  run (bind p f) db =
  match run p db with
  | (Ok a, db') => run (f a) db'
  | (Err e, db') => (Err e, db')
  end.
Proof.
  revert db. induction p as [a | e | X op k IHk h IHh]; intros db; simpl; [done | done |].
  destruct (exec op db) as [[e | x] db']; [apply IHh | apply IHk].
Qed.

Lemma run_try_catch {A} (p : Prog A) (h : string -> Prog A) db :
  run (try_catch p h) db =
  match run p db with
  | (Ok a, db') => (Ok a, db')
  | (Err e, db') => run (h e) db'
  end.
Proof.
  revert db. induction p as [a | e | X op k IHk h' IHh]; intros db; simpl; [done | done |].
  destruct (exec op db) as [[e | x] db']; [apply IHh | apply IHk].
Qed.

Lemma run_await {X} (op : DbOp X) db :
  run (await op) db =
  match exec op db with
  | (inr x, db') => (Ok x, db')
  | (inl e, db') => (Err e, db')
  end.
Proof. reflexivity. Qed.

(** A call that is scheduled alone until it settles does what [run] says. *)
Lemma run_schedule_alone {A} (p : Prog A) :
  forall db, exists n, forall (pool : list (Prog A)) (i : nat),
    pool !! i = Some p ->
    run_schedule (replicate n i) pool db
    = (<[i := settled (run p db).1]> pool, (run p db).2).
Proof.
  induction p as [a | e | X op k IHk h IHh]; intros db.
  - exists 0%nat. intros pool i Hi. simpl. by rewrite list_insert_id.
  - exists 0%nat. intros pool i Hi. simpl. by rewrite list_insert_id.
  - simpl. destruct (exec op db) as [[e | x] db'] eqn:Hex.
    + destruct (IHh e db') as [n Hn]. exists (S n). intros pool i Hi.
      cbn [replicate run_schedule]. rewrite Hi. cbn [step]. rewrite Hex.
      rewrite (Hn (<[i := h e]> pool) i).
      * by rewrite list_insert_insert_eq.
      * apply list_lookup_insert_eq. by eapply lookup_lt_Some.
    + destruct (IHk x db') as [n Hn]. exists (S n). intros pool i Hi.
      cbn [replicate run_schedule]. rewrite Hi. cbn [step]. rewrite Hex.
      rewrite (Hn (<[i := k x]> pool) i).
      * by rewrite list_insert_insert_eq.
      * apply list_lookup_insert_eq. by eapply lookup_lt_Some.
Qed.

Lemma run_schedule_app {A} (s1 s2 : list nat) :
  forall (pool : list (Prog A)) db,
    run_schedule (s1 ++ s2) pool db
    = run_schedule s2 (run_schedule s1 pool db).1 (run_schedule s1 pool db).2.
Proof.
  induction s1 as [| i s1 IH]; intros pool db; cbn [app run_schedule fst snd]; [done |].
  destruct (pool !! i) as [p |]; [| apply IH].
  destruct (step p db) as [p' db']. apply IH.
Qed.

(** Calls that run one after another are one schedule of the pool: the
    one that lets each call settle before the next call starts. *)
Lemma run_schedule_serial {A} (calls : list (Prog A)) :
  forall (finished : list (Prog A)) db,
  exists sched,
    run_schedule sched (finished ++ calls) db
    = (finished ++ map settled (run_seq calls db).1, (run_seq calls db).2).
Proof.
  induction calls as [| p rest IH]; intros finished db.
  - exists []. reflexivity.
  - destruct (run_schedule_alone p db) as [n Hn].
    specialize (Hn (finished ++ p :: rest) (length finished)).
    rewrite list_lookup_middle in Hn by done. specialize (Hn eq_refl).
    cbn [run_seq]. destruct (run p db) as [o db1]. cbn [fst snd] in Hn.
    destruct (IH (finished ++ [settled o]) db1) as [sched Hsched].
    destruct (run_seq rest db1) as [os db2]. cbn [fst snd map] in *.
    exists (replicate n (length finished) ++ sched).
    rewrite run_schedule_app, Hn. cbn [fst snd].
    rewrite insert_app_r_alt, Nat.sub_diag by done. cbn [insert list_insert].
    rewrite (cons_middle (settled o)), app_assoc, Hsched.
    by rewrite <- app_assoc.
Qed.

(** ** What one call of [awardPoints] does *)

Lemma head_filter_None {A} (f : A -> bool) (l : list A) :
  head (List.filter f l) = None <-> existsb f l = false.
Proof.
  induction l as [| a l IH]; simpl; [done |].
  destruct (f a); simpl; [split; discriminate | exact IH].
Qed.

(** The existence check of the loop, with its two [where] calls, looks
    at the achievement type only. *)
Lemma existence_check uid t rows :
  head (rows_of (where_ (where_ select_from_achievements (eq_userId uid))
                        (eq_achievementType t)) rows)
  = None <-> type_held t rows = false.
Proof. unfold rows_of, where_, type_held. simpl. apply head_filter_None. Qed.

Lemma run_checkUnlockedRewards_loop rs uid oldTotal newTotal :
  forall acc db,
    run (checkUnlockedRewards_loop rs uid oldTotal newTotal acc) db
    = (Ok (acc ++ map reward_name (newly rs uid oldTotal newTotal (achievements db))),
       mkDB (users db)
            (achievements db
               ++ map (achievement_for uid)
                    (newly rs uid oldTotal newTotal (achievements db)))).
Proof.
  induction rs as [| reward rest IH]; intros acc [us rows].
  - simpl. by rewrite !app_nil_r.
  - cbn [checkUnlockedRewards_loop newly]. unfold crossed.
    destruct ((oldTotal <? points reward) && (newTotal >=? points reward)) eqn:Hc;
      cbn [andb]; [| apply IH].
    rewrite run_bind, run_await. cbn [exec achievements users].
    destruct (type_held (type reward) rows) eqn:Hheld.
    + destruct (head _) as [a |] eqn:Hhead.
      * cbn [negb]. apply IH.
      * apply existence_check in Hhead. congruence.
    + rewrite (proj2 (existence_check uid _ _) Hheld). cbn [negb].
      rewrite run_bind, run_await. cbn [exec achievements users].
      rewrite IH. cbn [achievements users map]. unfold achievement_for at 3.
      by rewrite <- !app_assoc.
Qed.

Lemma run_awardPoints_existing uid pts action db row :
  users db !! uid = Some row ->
  let oldTotal := or_else (totalPoints row) 0 in
  let newTotal := oldTotal + pts in
  let created := newly rewardThresholds uid oldTotal newTotal (achievements db) in
  run (awardPoints uid pts action) db
  = (Ok (mkAwardResult newTotal
           (calculateLevel newTotal - or_else (level row) 1)
           (map reward_name created)),
     mkDB (alter (set_points newTotal (calculateLevel newTotal)) uid (users db))
          (achievements db ++ map (achievement_for uid) created)).
Proof.
  intros Hrow. cbv zeta. unfold awardPoints.
  rewrite run_try_catch, run_bind, run_await. cbn [exec]. rewrite Hrow.
  rewrite run_bind, run_await. cbn [exec].
  unfold checkUnlockedRewards.
  rewrite run_bind, run_checkUnlockedRewards_loop. by cbn [run achievements users app].
Qed.

Lemma run_awardPoints_new uid pts action db :
  users db !! uid = None ->
  run (awardPoints uid pts action) db
  = if email_taken ("user" +:+ uid +:+ "@example.com") (users db) then
      (Err ("Failed to award points: "
              +:+ failed_insert_users uid (new_user_row uid pts)), db)
    else
      (Ok (mkAwardResult pts 0 []),
       mkDB (<[uid := new_user_row uid pts]> (users db)) (achievements db)).
Proof.
  intros Hrow. unfold awardPoints.
  rewrite run_try_catch, run_bind, run_await. cbn [exec]. rewrite Hrow.
  rewrite run_bind, run_await. cbn [exec email]. rewrite Hrow.
  rewrite bool_decide_eq_false_2 by (intros [? ?]; discriminate).
  by destruct (email_taken _ _).
Qed.

(** ** The rows the loop inserts *)

Lemma type_held_app t rows rows' :
  type_held t (rows ++ rows') = type_held t rows || type_held t rows'.
Proof. unfold type_held. apply existsb_app. Qed.

Lemma type_held_true t rows :
  type_held t rows = true <-> exists a, a ∈ rows /\ achievementType a = t.
Proof.
  unfold type_held. rewrite existsb_exists. split.
  - intros (a & Hin & Ha). exists a. split; [by apply list_elem_of_In |].
    by apply bool_decide_eq_true in Ha.
  - intros (a & Hin & Ha). exists a. split; [by apply list_elem_of_In |].
    by apply bool_decide_eq_true.
Qed.

Lemma records_of_app uid t rows rows' :
  records_of uid t (rows ++ rows') = records_of uid t rows ++ records_of uid t rows'.
Proof. unfold records_of. apply List.filter_app. Qed.

Lemma records_of_not_held uid t rows :
  type_held t rows = false -> records_of uid t rows = [].
Proof.
  induction rows as [| a rows IH]; cbn; [done |].
  intros H. apply orb_false_elim in H as [Ha Hrows].
  rewrite Ha, andb_false_r. by apply IH.
Qed.

Lemma records_of_other_type uid t o t' n :
  t <> t' -> records_of uid t [mkAchievement o t' n] = [].
Proof.
  intros Hne. cbn. rewrite (bool_decide_eq_false_2 (t' = t)) by congruence.
  by rewrite andb_false_r.
Qed.

(** The loop of one call: the user and the two totals are fixed. *)
Section Loop.

Context (uid : string) (oldTotal newTotal : Z).

Lemma newly_elem reward rs :
  forall rows,
    reward ∈ newly rs uid oldTotal newTotal rows ->
    reward ∈ rs /\ crossed oldTotal newTotal reward = true
    /\ type_held (type reward) rows = false.
Proof.
  induction rs as [| r rest IH]; intros rows; cbn [newly].
  - intros H. by apply elem_of_nil in H.
  - destruct (crossed oldTotal newTotal r) eqn:Hc; cbn [andb].
    + destruct (type_held (type r) rows) eqn:Hh; cbn [negb].
      * intros H. apply IH in H as (? & ? & ?). split; [by right | done].
      * intros H. apply elem_of_cons in H as [-> | H].
        -- split; [by left | done].
        -- apply IH in H as (? & ? & Hh'). split; [by right |]. split; [done |].
           rewrite type_held_app in Hh'. by apply orb_false_elim in Hh' as [? _].
    + intros H. apply IH in H as (? & ? & ?). split; [by right | done].
Qed.

Lemma newly_complete reward rs :
  forall rows,
    NoDup (map type rs) ->
    reward ∈ rs ->
    crossed oldTotal newTotal reward = true ->
    type_held (type reward) rows = false ->
    reward ∈ newly rs uid oldTotal newTotal rows.
Proof.
  induction rs as [| r rest IH]; intros rows Hnd Hin Hc Hh; cbn [newly].
  - by apply elem_of_nil in Hin.
  - cbn [map] in Hnd. apply NoDup_cons in Hnd as [Hfresh Hnd].
    apply elem_of_cons in Hin as [<- | Hin].
    + rewrite Hc, Hh. cbn. by left.
    + assert (type reward <> type r) as Hne.
      { intros Heq. apply Hfresh. rewrite <- Heq. by apply list_elem_of_fmap_2. }
      destruct (crossed oldTotal newTotal r && negb (type_held (type r) rows)).
      * right. apply IH; [done | done | done |].
        rewrite type_held_app, Hh. cbn.
        rewrite orb_false_r. by apply bool_decide_eq_false_2.
      * by apply IH.
Qed.

Lemma newly_no_row_of_held_type t rs uid' rows :
  type_held t rows = true ->
  records_of uid' t (map (achievement_for uid) (newly rs uid oldTotal newTotal rows)) = [].
Proof.
  intros Hheld.
  assert (forall r, r ∈ newly rs uid oldTotal newTotal rows -> type r <> t) as Hall.
  { intros r Hr Heq. apply newly_elem in Hr as (_ & _ & Hh). congruence. }
  induction (newly rs uid oldTotal newTotal rows) as [| r l IH]; cbn; [done |].
  rewrite (bool_decide_eq_false_2 (type r = t)) by (apply Hall; by left).
  rewrite andb_false_r. apply IH. intros r' Hr'. apply Hall. by right.
Qed.

Lemma at_most_one_newly rs :
  forall rows,
    at_most_one_per_pair rows ->
    at_most_one_per_pair
      (rows ++ map (achievement_for uid) (newly rs uid oldTotal newTotal rows)).
Proof.
  induction rs as [| r rest IH]; intros rows Hrows; cbn [newly].
  - cbn. by rewrite app_nil_r.
  - destruct (crossed oldTotal newTotal r && negb (type_held (type r) rows)) eqn:Hc;
      [| by apply IH].
    apply andb_prop in Hc as [_ Hh]. apply negb_true_iff in Hh.
    cbn [map]. rewrite (app_assoc rows [_] _) || rewrite cons_middle, app_assoc.
    apply IH. intros uid' t. rewrite records_of_app.
    destruct (decide (t = type r)) as [-> | Hne].
    + rewrite (records_of_not_held _ _ _ Hh). cbn.
      destruct (_ && _); cbn; lia.
    + rewrite (records_of_other_type _ _ _ _ _ Hne), app_nil_r. apply Hrows.
Qed.

End Loop.

(** ** Totals *)

Lemma or_else_Some_0 v : or_else (Some v) 0 = v.
Proof. unfold or_else. case_bool_decide; congruence. Qed.

Lemma stored_total_after_award uid pts action db r db' :
  run (awardPoints uid pts action) db = (Ok r, db') ->
  stored_total db' uid = stored_total db uid + pts
  /\ newTotal r = stored_total db' uid.
Proof.
  unfold stored_total. destruct (users db !! uid) as [row |] eqn:Hrow.
  - rewrite (run_awardPoints_existing _ _ _ _ _ Hrow). intros [= <- <-].
    cbn [users newTotal]. rewrite lookup_alter_eq, Hrow.
    cbn [fmap option_fmap option_map set_points totalPoints].
    by rewrite or_else_Some_0.
  - rewrite (run_awardPoints_new _ _ _ _ Hrow).
    destruct (email_taken _ _); [discriminate |]. intros [= <- <-].
    cbn [users newTotal]. rewrite lookup_insert_eq.
    cbn [new_user_row totalPoints]. rewrite or_else_Some_0. lia.
Qed.

(** C1 (as amended): Award calls for one user that run one after another,
    none overlapping another, and that all succeed leave the stored total
    at the old total plus the sum of the awarded points. *)
Theorem C1_sequential_awards_add_up uid awards :
  forall db,
    forallb succeeded (run_seq (award_calls uid awards) db).1 = true ->
    stored_total (run_seq (award_calls uid awards) db).2 uid
    = stored_total db uid + sum_points (map fst awards).
Proof.
  induction awards as [| [pts action] rest IH]; intros db; cbn [award_calls map run_seq].
  - intros _. cbn. lia.
  - fold (award_calls uid rest). cbn [fst snd].
    destruct (run (awardPoints uid pts action) db) as [o db1] eqn:Hrun.
    specialize (IH db1).
    destruct (run_seq (award_calls uid rest) db1) as [os db2].
    cbn [fst snd forallb] in *. intros Hok.
    apply andb_prop in Hok as [Ho Hos].
    destruct o as [r | e]; [| discriminate].
    apply stored_total_after_award in Hrun as [Hrun _].
    rewrite (IH Hos), Hrun. cbn [sum_points foldr]. unfold sum_points. lia.
Qed.

Lemma C1_sequential_awards_add_up_witness :
  stored_total
    (run_seq (award_calls "u" [(5, "weather"); (30, "save"); (20, "plan")]%string)
       (mkDB ∅ [])).2 "u"
  = stored_total (mkDB ∅ []) "u" + sum_points [5; 30; 20].
Proof.
  apply (C1_sequential_awards_add_up "u"
           [(5, "weather"); (30, "save"); (20, "plan")]%string (mkDB ∅ [])).
  vm_compute. reflexivity.
Defined.

(** C1 (counterexample): two awards of 5 points to a user who holds 10,
    scheduled so that both read the row before either writes it, both
    succeed, and the stored total is 15, not 20. *)
Lemma C1_lost_update :
  let db := mkDB {[ "u" := new_user_row "u" 10 ]} [] in
  let calls := award_calls "u" [(5, "weather"); (5, "weather")]%string in
  let final := run_schedule [0; 1; 0; 1]%nat calls db in
  final.1 = [Ret (mkAwardResult 15 0 []); Ret (mkAwardResult 15 0 [])]
  /\ stored_total db "u" = 10
  /\ stored_total final.2 "u" = 15
  /\ stored_total final.2 "u" <> stored_total db "u" + sum_points [5; 5].
Proof. vm_compute. repeat split; discriminate. Qed.

(** ** Levels *)

Lemma calculateLevel_mono a b : a <= b -> calculateLevel a <= calculateLevel b.
Proof.
  intros Hab. unfold calculateLevel.
  assert (a / 50 <= b / 50) by (apply Z.div_le_mono; lia). lia.
Qed.

(** On the update path the stored level is the level of the stored total. *)
Lemma stored_level_after_update uid pts action db row :
  users db !! uid = Some row ->
  stored_level (run (awardPoints uid pts action) db).2 uid
  = Some (calculateLevel (stored_total (run (awardPoints uid pts action) db).2 uid)).
Proof.
  intros Hrow. rewrite (run_awardPoints_existing _ _ _ _ _ Hrow).
  unfold stored_level, stored_total. cbn [snd users].
  rewrite lookup_alter_eq, Hrow.
  cbn [fmap option_fmap option_map set_points totalPoints level].
  by rewrite or_else_Some_0.
Qed.

(** On the creation path the stored level is the constant 1. *)
Lemma stored_level_after_create uid pts action db r db' :
  users db !! uid = None ->
  run (awardPoints uid pts action) db = (Ok r, db') ->
  stored_level db' uid = Some 1 /\ stored_total db' uid = pts.
Proof.
  intros Hrow. rewrite (run_awardPoints_new _ _ _ _ Hrow).
  destruct (email_taken _ _); [discriminate |]. intros [= <- <-].
  unfold stored_level, stored_total. cbn [users].
  rewrite lookup_insert_eq. cbn [new_user_row level totalPoints].
  by rewrite or_else_Some_0.
Qed.

(** C2 (the code at the failing input): the first award of 60 points to
    an unseen user succeeds and stores total 60 with level 1, while the
    level of 60 points is 2. *)
Theorem C2_created_user_has_level_one :
  let out := run (awardPoints "v" 60 "bonus") (mkDB ∅ []) in
  out.1 = Ok (mkAwardResult 60 0 [])
  /\ stored_total out.2 "v" = 60
  /\ stored_level out.2 "v" = Some 1
  /\ calculateLevel 60 = 2.
Proof. vm_compute. repeat split. Qed.

(** C4 (as amended): on an existing user record [levelsGained] is the
    level of the new total minus the stored level (read as 1 when it is
    null or 0); when that stored level is the level of the old total it is
    the difference of the two levels, and then it is not negative
    whenever the awarded points are not negative. *)
Theorem C4_levelsGained_of_existing_user uid pts action db row :
  users db !! uid = Some row ->
  let oldTotal := stored_total db uid in
  let newTotal := oldTotal + pts in
  exists r db',
    run (awardPoints uid pts action) db = (Ok r, db')
    /\ levelsGained r = calculateLevel newTotal - or_else (level row) 1
    /\ (or_else (level row) 1 = calculateLevel oldTotal ->
        levelsGained r = calculateLevel newTotal - calculateLevel oldTotal
        /\ (0 <= pts -> 0 <= levelsGained r)).
Proof.
  intros Hrow. cbv zeta. rewrite (run_awardPoints_existing _ _ _ _ _ Hrow).
  unfold stored_total. rewrite Hrow. eexists _, _. split; [reflexivity |].
  cbn [levelsGained]. split; [reflexivity |].
  intros ->. split; [reflexivity |]. intros Hpts.
  pose proof (calculateLevel_mono (or_else (totalPoints row) 0)
                (or_else (totalPoints row) 0 + pts)).
  lia.
Qed.

Lemma C4_levelsGained_of_existing_user_witness :
  let db := mkDB {[ "u" := new_user_row "u" 48 ]} [] in
  exists r db',
    run (awardPoints "u" 5 "weather") db = (Ok r, db')
    /\ levelsGained r = calculateLevel (stored_total db "u" + 5)
                        - calculateLevel (stored_total db "u")
    /\ 0 <= levelsGained r.
Proof.
  intros db.
  destruct (C4_levelsGained_of_existing_user "u" 5 "weather" db (new_user_row "u" 48))
    as (r & db' & Hrun & _ & Hlevels); [vm_compute; reflexivity |].
  exists r, db'. split; [exact Hrun |].
  destruct Hlevels as [Hgain Hpos]; [vm_compute; reflexivity |].
  split; [exact Hgain | apply Hpos; lia].
Defined.

(** C4 (counterexample): a user created by an award of 60 points holds
    level 1, so the next award of 5 points reports one level gained
    although 60 and 65 points are the same level; and an award of -50
    points to a user at 60 points with level 2 reports -1. *)
Lemma C4_levelsGained_counterexample :
  (let outs := (run_seq (award_calls "v" [(60, "bonus"); (5, "weather")]%string)
                  (mkDB ∅ [])).1 in
   outs = [Ok (mkAwardResult 60 0 []); Ok (mkAwardResult 65 1 [])]
   /\ calculateLevel 65 - calculateLevel 60 = 0)
  /\ (let db := mkDB {[ "u" := mkUserRow "u@example.com" "User u" (Some 60) (Some 2) ]} [] in
      (run (awardPoints "u" (-50) "refund") db).1 = Ok (mkAwardResult 10 (-1) [])).
Proof. vm_compute. repeat split. Qed.

(** ** Unlocking achievements *)

Lemma rewardThresholds_types_NoDup : NoDup (map type rewardThresholds).
Proof. apply (bool_decide_unpack _). vm_compute. exact I. Qed.

Lemma rewardThresholds_name_inj r r' :
  r ∈ rewardThresholds -> r' ∈ rewardThresholds ->
  reward_name r = reward_name r' -> r = r'.
Proof.
  intros Hr Hr'. apply list_elem_of_In in Hr, Hr'. cbn in Hr, Hr'.
  destruct Hr as [<- | [<- | [<- | [<- | []]]]];
    destruct Hr' as [<- | [<- | [<- | [<- | []]]]];
    cbn; intros; (reflexivity || discriminate).
Qed.

(** One turn of the loop at a crossed threshold whose achievement type
    some user already holds: no insert, no push. *)
Lemma loop_skips_held_type reward rest uid oldTotal newTotal acc db a :
  crossed oldTotal newTotal reward = true ->
  a ∈ achievements db -> achievementType a = type reward ->
  run (checkUnlockedRewards_loop (reward :: rest) uid oldTotal newTotal acc) db
  = run (checkUnlockedRewards_loop rest uid oldTotal newTotal acc) db.
Proof.
  intros Hc Hin Ha. rewrite !run_checkUnlockedRewards_loop. cbn [newly].
  assert (type_held (type reward) (achievements db) = true) as ->
    by (apply type_held_true; eauto).
  by rewrite andb_false_r.
Qed.

(** What an award to an existing user unlocks: the crossed entries whose
    achievement type no user holds yet. *)
Lemma unlocked_iff uid oldTotal newTotal rows reward :
  reward ∈ rewardThresholds ->
  reward ∈ newly rewardThresholds uid oldTotal newTotal rows
  <-> crossed oldTotal newTotal reward = true
      /\ type_held (type reward) rows = false.
Proof.
  intros Hin. split.
  - intros H. by apply newly_elem in H as (_ & ? & ?).
  - intros [Hc Hh]. by apply newly_complete; [apply rewardThresholds_types_NoDup | ..].
Qed.

(** Scenario B of the specification, on a store without achievements. *)
Example scenario_B :
  (run (awardPoints "u" 5 "weather") (mkDB {[ "u" := new_user_row "u" 48 ]} [])).1
  = Ok (mkAwardResult 53 1 ["Restaurant Finder"%string]).
Proof. vm_compute. reflexivity. Qed.

(** C3 (the code at the failing input): user u is at 48 points and holds
    no achievement; another user v holds [restaurant_recommendations].
    An award of 5 points to u crosses 50, yet no row is inserted and
    nothing is reported as unlocked. *)
Theorem C3_other_users_record_blocks_unlock :
  let held := mkAchievement (Some "v") "restaurant_recommendations" 50 in
  let db := mkDB {[ "u" := new_user_row "u" 48; "v" := new_user_row "v" 60 ]} [held] in
  let out := run (awardPoints "u" 5 "weather") db in
  records_of "u" "restaurant_recommendations" (achievements db) = []
  /\ crossed 48 53 (mkReward 50 "restaurant_recommendations" "Restaurant Finder") = true
  /\ out.1 = Ok (mkAwardResult 53 1 [])
  /\ achievements out.2 = [held].
Proof. vm_compute. repeat split. Qed.

(** C6: the existence check of the threshold step is by achievement
    type alone.  An award to user u that crosses a threshold whose
    achievement type is held by any user, u or another, inserts no row
    of that type for u and does not report the entry's name. *)
Theorem C6_existence_check_ignores_user uid pts action db reward a :
  reward ∈ rewardThresholds ->
  crossed (stored_total db uid) (stored_total db uid + pts) reward = true ->
  a ∈ achievements db ->
  achievementType a = type reward ->
  let out := run (awardPoints uid pts action) db in
  records_of uid (type reward) (achievements out.2)
  = records_of uid (type reward) (achievements db)
  /\ forall r, out.1 = Ok r -> reward_name reward ∉ unlockedRewards r.
Proof.
  intros Hin _ Ha Htype. cbv zeta.
  destruct (users db !! uid) as [row |] eqn:Hrow.
  - rewrite (run_awardPoints_existing _ _ _ _ _ Hrow). cbn [fst snd achievements].
    assert (type_held (type reward) (achievements db) = true) as Hheld
      by (apply type_held_true; eauto).
    split.
    + rewrite records_of_app, (newly_no_row_of_held_type _ _ _ _ _ _ _ Hheld).
      apply app_nil_r.
    + set (created := newly _ _ _ _ _).
      assert (forall r', r' ∈ created ->
                         r' ∈ rewardThresholds
                         /\ type_held (type r') (achievements db) = false) as Hcreated.
      { intros r' Hr'. by apply newly_elem in Hr' as (? & _ & ?). }
      clearbody created. intros r [= <-]. cbn [unlockedRewards]. intros Hname.
      apply list_elem_of_fmap in Hname as (r' & Heq & Hr').
      apply Hcreated in Hr' as (Hin' & Hfree).
      apply (rewardThresholds_name_inj _ _ Hin Hin') in Heq. subst r'. congruence.
  - rewrite (run_awardPoints_new _ _ _ _ Hrow).
    destruct (email_taken _ _); cbn [fst snd achievements]; (split; [done |]).
    + intros r [=].
    + intros r [= <-]. cbn [unlockedRewards]. apply not_elem_of_nil.
Qed.

Lemma C6_existence_check_ignores_user_witness :
  let held := mkAchievement (Some "v") "restaurant_recommendations" 50 in
  let db := mkDB {[ "u" := new_user_row "u" 48; "v" := new_user_row "v" 60 ]} [held] in
  let out := run (awardPoints "u" 5 "weather") db in
  records_of "u" "restaurant_recommendations" (achievements out.2)
  = records_of "u" "restaurant_recommendations" (achievements db)
  /\ forall r, out.1 = Ok r -> "Restaurant Finder"%string ∉ unlockedRewards r.
Proof.
  intros held db.
  apply (C6_existence_check_ignores_user "u" 5 "weather" db
           (mkReward 50 "restaurant_recommendations" "Restaurant Finder") held).
  - apply list_elem_of_here.
  - vm_compute. reflexivity.
  - apply list_elem_of_here.
  - reflexivity.
Defined.

(** ** One record per user and achievement type *)

Lemma award_appends uid pts action db :
  exists added,
    achievements (run (awardPoints uid pts action) db).2 = achievements db ++ added.
Proof.
  destruct (users db !! uid) as [row |] eqn:Hrow.
  - rewrite (run_awardPoints_existing _ _ _ _ _ Hrow). by eexists.
  - rewrite (run_awardPoints_new _ _ _ _ Hrow). exists [].
    destruct (email_taken _ _); cbn; by rewrite app_nil_r.
Qed.

Lemma award_keeps_pairs_unique uid pts action db :
  at_most_one_per_pair (achievements db) ->
  at_most_one_per_pair (achievements (run (awardPoints uid pts action) db).2).
Proof.
  intros Hdb. destruct (users db !! uid) as [row |] eqn:Hrow.
  - rewrite (run_awardPoints_existing _ _ _ _ _ Hrow). cbn [snd achievements].
    by apply at_most_one_newly.
  - rewrite (run_awardPoints_new _ _ _ _ Hrow). by destruct (email_taken _ _).
Qed.

Lemma run_seq_appends calls :
  forall db, exists added,
    achievements (run_seq (map award_call calls) db).2 = achievements db ++ added.
Proof.
  induction calls as [| [[uid pts] action] rest IH]; intros db; cbn [map run_seq].
  - exists []. cbn. by rewrite app_nil_r.
  - unfold award_call at 1. cbn [fst snd].
    destruct (award_appends uid pts action db) as [added1 H1].
    destruct (run (awardPoints uid pts action) db) as [o db1].
    destruct (IH db1) as [added2 H2].
    destruct (run_seq (map award_call rest) db1) as [os db2].
    cbn [snd] in *. exists (added1 ++ added2). by rewrite H2, H1, app_assoc.
Qed.

(** C5 (as amended): Award calls that run one after another, for any
    users, keep at most one achievement record per (user, achievement
    type): started on a store with that property they end on one, and a
    pair that had its record before still has exactly that record after,
    however often its threshold is crossed again. *)
Theorem C5_sequential_awards_keep_one_record_per_pair calls :
  forall db,
    at_most_one_per_pair (achievements db) ->
    let rows' := achievements (run_seq (map award_call calls) db).2 in
    at_most_one_per_pair rows'
    /\ forall uid t a,
         records_of uid t (achievements db) = [a] -> records_of uid t rows' = [a].
Proof.
  intros db Hdb. cbv zeta.
  assert (at_most_one_per_pair (achievements (run_seq (map award_call calls) db).2))
    as Hone.
  { revert db Hdb.
    induction calls as [| [[uid pts] action] rest IH]; intros db Hdb; cbn [map run_seq];
      [done |].
    unfold award_call at 1. cbn [fst snd].
    pose proof (award_keeps_pairs_unique uid pts action db Hdb) as H1.
    destruct (run (awardPoints uid pts action) db) as [o db1].
    specialize (IH db1 H1).
    by destruct (run_seq (map award_call rest) db1) as [os db2]. }
  split; [exact Hone |].
  intros uid t a Ha. specialize (Hone uid t).
  destruct (run_seq_appends calls db) as [added Hadd].
  rewrite Hadd, records_of_app, Ha in *.
  destruct (records_of uid t added); [done | cbn in Hone; lia].
Qed.

Lemma C5_sequential_awards_keep_one_record_per_pair_witness :
  let db := mkDB {[ "u" := new_user_row "u" 45 ]} [] in
  let calls := [("u", 50, "bonus"); ("u", 10, "save"); ("u", -10, "undo");
                ("u", 10, "save")]%string in
  let rows' := achievements (run_seq (map award_call calls) db).2 in
  at_most_one_per_pair rows'
  /\ forall uid t a,
       records_of uid t (achievements db) = [a] -> records_of uid t rows' = [a].
Proof.
  intros db calls.
  apply (C5_sequential_awards_keep_one_record_per_pair calls db).
  intros uid t. cbn. lia.
Defined.

(** The calls of that witness cross 100 twice and leave one record. *)
Example hidden_gems_unlocked_once :
  let db := mkDB {[ "u" := new_user_row "u" 45 ]} [] in
  let calls := [("u", 50, "bonus"); ("u", 10, "save"); ("u", -10, "undo");
                ("u", 10, "save")]%string in
  let out := run_seq (map award_call calls) db in
  map (fun o => match o with Ok r => unlockedRewards r | Err _ => [] end) out.1
  = [["Restaurant Finder"]; ["Hidden Gems Discovery"]; []; []]%string
  /\ records_of "u" "hidden_gems" (achievements out.2)
     = [mkAchievement (Some "u") "hidden_gems" 100].
Proof. vm_compute. split; reflexivity. Qed.

(** C5 (counterexample): two awards of 10 points to a user at 95 points,
    scheduled [await] by [await] in turn, both find no [hidden_gems]
    record and both insert one. *)
Lemma C5_concurrent_awards_insert_twice :
  let db := mkDB {[ "u" := mkUserRow "useru@example.com" "User u" (Some 95) (Some 2) ]} [] in
  let calls := award_calls "u" [(10, "save"); (10, "save")]%string in
  let final := run_schedule [0; 1; 0; 1; 0; 1; 0; 1]%nat calls db in
  final.1 = [Ret (mkAwardResult 105 1 ["Hidden Gems Discovery"%string]);
             Ret (mkAwardResult 105 1 ["Hidden Gems Discovery"%string])]
  /\ records_of "u" "hidden_gems" (achievements final.2)
     = [mkAchievement (Some "u") "hidden_gems" 100;
        mkAchievement (Some "u") "hidden_gems" 100]
  /\ ~ at_most_one_per_pair (achievements final.2).
Proof.
  vm_compute. split; [reflexivity |]. split; [reflexivity |].
  intros H. specialize (H "u" "hidden_gems"). vm_compute in H. lia.
Qed.

(** ** Inputs that the specification rules out *)

(** C7 (as amended): [awardPoints] does not validate its inputs; a call
    with non-positive points or an empty user id is processed like any
    other.  On an existing user it succeeds and stores the old total plus
    the points; on an unseen user it inserts the row with the points as
    total; when the e-mail address derived from the id is taken, that
    insert is rejected, the call fails with some error and both tables
    stay as they were. *)
Theorem C7_award_does_not_validate uid pts action db :
  pts <= 0 \/ uid = "" ->
  match users db !! uid with
  | Some row =>
      exists r db',
        run (awardPoints uid pts action) db = (Ok r, db')
        /\ newTotal r = stored_total db uid + pts
        /\ stored_total db' uid = stored_total db uid + pts
  | None =>
      if email_taken ("user" +:+ uid +:+ "@example.com") (users db) then
        exists message, run (awardPoints uid pts action) db = (Err message, db)
      else
        exists db',
          run (awardPoints uid pts action) db = (Ok (mkAwardResult pts 0 []), db')
          /\ users db' !! uid = Some (new_user_row uid pts)
  end.
Proof.
  intros _. destruct (users db !! uid) as [row |] eqn:Hrow.
  - destruct (run (awardPoints uid pts action) db) as [o db'] eqn:Hrun.
    pose proof Hrun as Hrun'.
    rewrite (run_awardPoints_existing _ _ _ _ _ Hrow) in Hrun'.
    destruct o as [r | e]; [| discriminate]. exists r, db'.
    split; [reflexivity |].
    apply stored_total_after_award in Hrun as [Htotal Hnew]. by rewrite Hnew.
  - rewrite (run_awardPoints_new _ _ _ _ Hrow).
    destruct (email_taken _ _); [by eexists |].
    eexists. split; [reflexivity |]. cbn [users]. apply lookup_insert_eq.
Qed.

Lemma C7_award_does_not_validate_witness :
  (let db := mkDB {[ "u" := new_user_row "u" 10 ]} [] in
   exists r db',
     run (awardPoints "u" (-5) "refund") db = (Ok r, db')
     /\ newTotal r = stored_total db "u" + -5
     /\ stored_total db' "u" = stored_total db "u" + -5)
  /\ (exists db',
        run (awardPoints "" 5 "weather") (mkDB ∅ []) = (Ok (mkAwardResult 5 0 []), db')
        /\ users db' !! ""%string = Some (new_user_row "" 5)).
Proof.
  split.
  - intros db.
    refine (C7_award_does_not_validate "u" (-5) "refund" db _). left. lia.
  - refine (C7_award_does_not_validate "" 5 "weather" (mkDB ∅ []) _). right. reflexivity.
Defined.

(** C7 (counterexample): an award of -5 points to a user at 10 points
    succeeds and lowers the stored total to 5; an award to the empty
    user id on an empty store succeeds and creates a user record. *)
Lemma C7_invalid_input_is_applied :
  (let db := mkDB {[ "u" := new_user_row "u" 10 ]} [] in
   let out := run (awardPoints "u" (-5) "refund") db in
   out.1 = Ok (mkAwardResult 5 0 [])
   /\ stored_total db "u" = 10 /\ stored_total out.2 "u" = 5)
  /\ (let db := mkDB ∅ [] in
      let out := run (awardPoints "" 5 "weather") db in
      out.1 = Ok (mkAwardResult 5 0 [])
      /\ users db !! ""%string = None
      /\ users out.2 !! ""%string = Some (new_user_row "" 5)).
Proof. vm_compute. repeat split. Qed.

(** ** Reading progress *)

Lemma run_getUserProgress uid db :
  run (getUserProgress uid) db
  = (Ok (match users db !! uid with
         | None => mkProgress 0 1 [] (mkNextReward "Restaurant Finder" 50)
         | Some user =>
             mkProgress (or_else (totalPoints user) 0) (or_else (level user) 1)
               (map achievementType
                  (List.filter (matches (eq_userId uid)) (achievements db)))
               (getNextReward (or_else (totalPoints user) 0))
         end), db).
Proof.
  unfold getUserProgress.
  rewrite run_try_catch, run_bind, run_await. cbn [exec].
  destruct (users db !! uid) as [user |]; [| reflexivity].
  by rewrite run_bind, run_await.
Qed.

Lemma getUserProgress_reads uid db :
  exists pr,
    run (getUserProgress uid) db = (Ok pr, db)
    /\ p_points pr = stored_total db uid
    /\ nextReward pr = getNextReward (stored_total db uid).
Proof.
  rewrite run_getUserProgress. eexists. split; [reflexivity |].
  unfold stored_total. by destruct (users db !! uid).
Qed.

Lemma getNextReward_cases p :
  getNextReward p
  = if p <? 50 then mkNextReward "Restaurant Finder" (50 - p)
    else if p <? 100 then mkNextReward "Hidden Gems Discovery" (100 - p)
    else if p <? 200 then mkNextReward "Local Food Specialties" (200 - p)
    else if p <? 300 then mkNextReward "Photography Spots" (300 - p)
    else mkNextReward "All rewards unlocked!" 0.
Proof. reflexivity. Qed.

Lemma rewardThresholds_elem e :
  e ∈ rewardThresholds <->
  e = mkReward 50 "restaurant_recommendations" "Restaurant Finder"
  \/ e = mkReward 100 "hidden_gems" "Hidden Gems Discovery"
  \/ e = mkReward 200 "food_specialties" "Local Food Specialties"
  \/ e = mkReward 300 "photography_spots" "Photography Spots".
Proof.
  unfold rewardThresholds. rewrite !elem_of_cons, elem_of_nil. tauto.
Qed.

(** C9 (as amended): [getUserProgress] changes nothing and reports as
    next reward the catalog entry of lowest threshold above the user's
    points, with the points still needed; when no threshold is above, it
    reports the name "All rewards unlocked!" and 0 points needed. *)
Theorem C9_next_reward_is_lowest_threshold_above uid db :
  exists pr,
    run (getUserProgress uid) db = (Ok pr, db)
    /\ p_points pr = stored_total db uid
    /\ (forall e,
          e ∈ rewardThresholds ->
          stored_total db uid < points e ->
          (forall e', e' ∈ rewardThresholds ->
                      stored_total db uid < points e' -> points e <= points e') ->
          nextReward pr
          = mkNextReward (reward_name e) (points e - stored_total db uid))
    /\ ((forall e, e ∈ rewardThresholds -> points e <= stored_total db uid) ->
        nextReward pr = mkNextReward "All rewards unlocked!" 0).
Proof.
  destruct (getUserProgress_reads uid db) as (pr & Hrun & Hpoints & Hnext).
  exists pr. split; [exact Hrun |]. split; [exact Hpoints |].
  rewrite Hnext, getNextReward_cases. set (p := stored_total db uid).
  assert (forall n t s, mkReward n t s ∈ rewardThresholds ->
                        mkReward n t s ∈ rewardThresholds) as Hin by done.
  pose proof (Hin 50 _ _ ltac:(apply rewardThresholds_elem; tauto)) as H50.
  pose proof (Hin 100 _ _ ltac:(apply rewardThresholds_elem; tauto)) as H100.
  pose proof (Hin 200 _ _ ltac:(apply rewardThresholds_elem; tauto)) as H200.
  pose proof (Hin 300 _ _ ltac:(apply rewardThresholds_elem; tauto)) as H300.
  clear Hin. split.
  - intros e He Habove Hleast.
    pose proof (Hleast _ H50) as L50. pose proof (Hleast _ H100) as L100.
    pose proof (Hleast _ H200) as L200. pose proof (Hleast _ H300) as L300.
    cbn [points] in *.
    apply rewardThresholds_elem in He as [-> | [-> | [-> | ->]]];
      cbn [points reward_name] in *;
      repeat (case_match; try lia);
      reflexivity.
  - intros Hall.
    pose proof (Hall _ H50). pose proof (Hall _ H100).
    pose proof (Hall _ H200). pose proof (Hall _ H300).
    cbn [points] in *. repeat (case_match; try lia). reflexivity.
Qed.

Lemma C9_next_reward_is_lowest_threshold_above_witness :
  let db := mkDB {[ "u" := mkUserRow "u@example.com" "User u" (Some 120) (Some 3);
                    "w" := mkUserRow "w@example.com" "User w" (Some 300) (Some 7) ]} [] in
  (exists pr,
     run (getUserProgress "u") db = (Ok pr, db)
     /\ nextReward pr = mkNextReward "Local Food Specialties" 80)
  /\ (exists pr,
        run (getUserProgress "w") db = (Ok pr, db)
        /\ nextReward pr = mkNextReward "All rewards unlocked!" 0).
Proof.
  intros db. split.
  - destruct (C9_next_reward_is_lowest_threshold_above "u" db)
      as (pr & Hrun & _ & Hnext & _).
    exists pr. split; [exact Hrun |].
    apply (Hnext (mkReward 200 "food_specialties" "Local Food Specialties")).
    + apply rewardThresholds_elem. tauto.
    + vm_compute. reflexivity.
    + intros e' He'. change (stored_total db "u") with 120.
      apply rewardThresholds_elem in He' as [-> | [-> | [-> | ->]]];
        cbn [points]; lia.
  - destruct (C9_next_reward_is_lowest_threshold_above "w" db)
      as (pr & Hrun & _ & _ & Hall).
    exists pr. split; [exact Hrun |].
    apply Hall.
    intros e He. change (stored_total db "w") with 300.
    apply rewardThresholds_elem in He as [-> | [-> | [-> | ->]]];
      cbn [points]; lia.
Defined.

(** C9 (counterexample): at 300 points every threshold is reached and the
    reported name ends in an exclamation mark, so it is not the name
    "All rewards unlocked". *)
Lemma C9_all_unlocked_name_differs :
  let db := mkDB {[ "w" := mkUserRow "w@example.com" "User w" (Some 300) (Some 7) ]} [] in
  forallb (fun e => points e <=? stored_total db "w") rewardThresholds = true
  /\ (run (getUserProgress "w") db).1
     = Ok (mkProgress 300 7 [] (mkNextReward "All rewards unlocked!" 0))
  /\ mkNextReward "All rewards unlocked!" 0 <> mkNextReward "All rewards unlocked" 0.
Proof. vm_compute. repeat split. discriminate. Qed.

(** C10: for a user id without a record [getUserProgress] returns zero
    points, level 1, no achievements and the first catalog entry as next
    reward, and leaves both tables as they were. *)
Theorem C10_progress_of_unseen_user uid db :
  users db !! uid = None ->
  run (getUserProgress uid) db
  = (Ok (mkProgress 0 1 [] (mkNextReward "Restaurant Finder" 50)), db).
Proof. intros Hrow. by rewrite run_getUserProgress, Hrow. Qed.

Lemma C10_progress_of_unseen_user_witness :
  let db := mkDB {[ "u" := new_user_row "u" 48 ]}
              [mkAchievement (Some "u") "restaurant_recommendations" 50] in
  run (getUserProgress "newcomer") db
  = (Ok (mkProgress 0 1 [] (mkNextReward "Restaurant Finder" 50)), db).
Proof.
  intros db. apply (C10_progress_of_unseen_user "newcomer" db).
  vm_compute. reflexivity.
Defined.

(** ** The reward gate *)

Lemma rewardRequirements_catalog reward :
  reward ∈ rewardThresholds -> rewardRequirements (type reward) = Some (points reward).
Proof.
  intros H. by apply rewardThresholds_elem in H as [-> | [-> | [-> | ->]]].
Qed.

(** The guard of the handler: these two user ids never reach the gate. *)
Lemma unlock_reward_requires_user uid rewardType db :
  uid = "" \/ uid = "anonymous" ->
  run (unlock_reward uid rewardType) db
  = (Ok (Failure "User ID is required to unlock rewards" uid), db).
Proof. by intros [-> | ->]. Qed.

(** C8 (as amended): for a user id that is neither empty nor
    [anonymous] and a reward type of the catalog, [unlock_reward] changes
    nothing; below the threshold it answers with the required points,
    the current points and their difference, and from the threshold on
    with the content that belongs to the reward type. *)
Theorem C8_unlock_reward_gate uid db reward :
  uid <> "" -> uid <> "anonymous" ->
  reward ∈ rewardThresholds ->
  let required := points reward in
  let current := stored_total db uid in
  (current < required ->
   run (unlock_reward uid (type reward)) db
   = (Ok (InsufficientPoints
            ("Insufficient points. Need " +:+ pretty required
               +:+ " points, you have " +:+ pretty current +:+ " points.")
            required current (required - current)), db))
  /\ (required <= current ->
      run (unlock_reward uid (type reward)) db
      = (Ok (Unlocked uid (type reward) (generateRewardContent (type reward))
               ("🎉 Congratulations! You've unlocked "
                  +:+ replace_underscore (type reward) +:+ "!")), db)).
Proof.
  intros Hne Hanon Hin. cbv zeta. unfold unlock_reward.
  rewrite !bool_decide_eq_false_2 by done. cbn [orb].
  rewrite run_try_catch, run_bind.
  destruct (getUserProgress_reads uid db) as (pr & -> & <- & _).
  rewrite (rewardRequirements_catalog _ Hin).
  split; intros Hcmp.
  - by rewrite (proj2 (Z.ltb_lt _ _) Hcmp).
  - by rewrite (proj2 (Z.ltb_ge _ _) Hcmp).
Qed.

(** Scenario D of the specification. *)
Lemma C8_unlock_reward_gate_witness :
  let db := mkDB {[ "u" := mkUserRow "u@example.com" "User u" (Some 290) (Some 6) ]} [] in
  run (unlock_reward "u" "photography_spots") db
  = (Ok (InsufficientPoints
           "Insufficient points. Need 300 points, you have 290 points."
           300 290 10), db).
Proof.
  intros db.
  apply (C8_unlock_reward_gate "u" db
           (mkReward 300 "photography_spots" "Photography Spots")).
  - discriminate.
  - discriminate.
  - apply rewardThresholds_elem. tauto.
  - vm_compute. reflexivity.
Defined.

(** C8 (counterexample): the user id [anonymous] has 0 points, below
    the 300 of [photography_spots], and the handler answers with the
    error of its guard, which carries no point figures. *)
Lemma C8_anonymous_gets_no_point_figures :
  let db := mkDB ∅ [] in
  stored_total db "anonymous" = 0
  /\ (run (getUserProgress "anonymous") db).1
     = Ok (mkProgress 0 1 [] (mkNextReward "Restaurant Finder" 50))
  /\ rewardRequirements "photography_spots" = Some 300
  /\ run (unlock_reward "anonymous" "photography_spots") db
     = (Ok (Failure "User ID is required to unlock rewards" "anonymous"), db).
Proof. vm_compute. repeat split. Qed.

(** * Further properties of the ledger and its callers *)

(** ** What an award leaves alone *)

Lemma other_user_row_after_award uid uid' pts action db :
  uid' <> uid ->
  users (run (awardPoints uid pts action) db).2 !! uid' = users db !! uid'.
Proof.
  intros Hne. destruct (users db !! uid) as [row |] eqn:Hrow.
  - rewrite (run_awardPoints_existing _ _ _ _ _ Hrow). cbn [snd users].
    by apply lookup_alter_ne.
  - rewrite (run_awardPoints_new _ _ _ _ Hrow).
    destruct (email_taken _ _); cbn [snd users]; [done |].
    by apply lookup_insert_ne.
Qed.

(** [awardPoints] for one user never changes the row of another user,
    whether the call succeeds or fails. *)
Theorem award_leaves_other_users uid uid' pts action db :
  uid' <> uid ->
  users (run (awardPoints uid pts action) db).2 !! uid' = users db !! uid'.
Proof.
  intros Hne. destruct (users db !! uid) as [row |] eqn:Hrow.
  - rewrite (run_awardPoints_existing _ _ _ _ _ Hrow). cbn [snd users].
    by apply lookup_alter_ne.
  - rewrite (run_awardPoints_new _ _ _ _ Hrow).
    destruct (email_taken _ _); cbn [snd users]; [done |].
    by apply lookup_insert_ne.
Qed.

Lemma award_leaves_other_users_witness :
  let db := mkDB {[ "u" := new_user_row "u" 48; "v" := new_user_row "v" 60 ]} [] in
  users (run (awardPoints "u" 5 "weather") db).2 !! "v" = users db !! "v".
Proof.
  intros db. apply (award_leaves_other_users "u" "v" 5 "weather" db). discriminate.
Defined.

Lemma newly_sublist rs uid oldTotal newTotal :
  forall rows, newly rs uid oldTotal newTotal rows `sublist_of` rs.
Proof.
  induction rs as [| r rest IH]; intros rows; cbn [newly]; [constructor |].
  destruct (_ && _); [apply sublist_skip | apply sublist_cons]; apply IH.
Qed.

(** A successful award reports the unlocked names in catalog order, and
    the achievements table afterwards is the table before followed by
    one row per reported name, each owned by the awarded user and
    carrying the type and threshold of its catalog entry. *)
Theorem award_unlocks_in_catalog_order uid pts action db r db' :
  run (awardPoints uid pts action) db = (Ok r, db') ->
  exists created,
    created `sublist_of` rewardThresholds
    /\ unlockedRewards r = map reward_name created
    /\ achievements db' = achievements db ++ map (achievement_for uid) created.
Proof.
  destruct (users db !! uid) as [row |] eqn:Hrow.
  - rewrite (run_awardPoints_existing _ _ _ _ _ Hrow).
    set (created := newly _ _ _ _ _).
    assert (created `sublist_of` rewardThresholds) as Hsub by apply newly_sublist.
    clearbody created. intros [= <- <-]. by exists created.
  - rewrite (run_awardPoints_new _ _ _ _ Hrow).
    destruct (email_taken _ _); [discriminate |]. intros [= <- <-].
    exists []. cbn. split; [apply sublist_nil_l |]. by rewrite app_nil_r.
Qed.

Lemma award_unlocks_in_catalog_order_witness :
  let db := mkDB {[ "u" := new_user_row "u" 40 ]} [] in
  exists r db' created,
    run (awardPoints "u" 170 "bonus") db = (Ok r, db')
    /\ created `sublist_of` rewardThresholds
    /\ unlockedRewards r = map reward_name created
    /\ achievements db' = achievements db ++ map (achievement_for "u") created.
Proof.
  intros db.
  destruct (run (awardPoints "u" 170 "bonus") db) as [o db'] eqn:Hrun.
  destruct o as [r | e]; [| vm_compute in Hrun; discriminate Hrun].
  destruct (award_unlocks_in_catalog_order "u" 170 "bonus" db r db' Hrun)
    as (created & H1 & H2 & H3).
  exists r, db', created. auto.
Defined.

(** An award of three thresholds at once, for illustration. *)
Example award_across_three_thresholds :
  let out := run (awardPoints "u" 170 "bonus")
               (mkDB {[ "u" := new_user_row "u" 40 ]} []) in
  out.1 = Ok (mkAwardResult 210 4
                ["Restaurant Finder"; "Hidden Gems Discovery";
                 "Local Food Specialties"]%string)
  /\ map pointsRequired (achievements out.2) = [50; 100; 200].
Proof. vm_compute. split; reflexivity. Qed.

Lemma stored_total_monotone_one uid uid' pts action db :
  0 <= pts ->
  stored_total db uid' <= stored_total (run (awardPoints uid pts action) db).2 uid'.
Proof.
  intros Hpts. destruct (decide (uid' = uid)) as [-> | Hne].
  - destruct (run (awardPoints uid pts action) db) as [[r | e] db'] eqn:Hrun.
    + cbn [snd]. apply stored_total_after_award in Hrun as [-> _]. lia.
    + destruct (users db !! uid) as [row |] eqn:Hrow.
      * by rewrite (run_awardPoints_existing _ _ _ _ _ Hrow) in Hrun.
      * rewrite (run_awardPoints_new _ _ _ _ Hrow) in Hrun.
        destruct (email_taken _ _); [| discriminate].
        injection Hrun as _ <-. cbn [snd]. lia.
  - unfold stored_total. by rewrite other_user_row_after_award.
Qed.

(** Over any sequence of awards of non-negative points, to any users,
    succeeding or failing, the stored total of a user never decreases. *)
Theorem totals_never_decrease calls :
  forall db uid,
    Forall (fun c : string * Z * string => 0 <= c.1.2) calls ->
    stored_total db uid <= stored_total (run_seq (map award_call calls) db).2 uid.
Proof.
  induction calls as [| [[u pts] action] rest IH]; intros db uid Hpos; cbn [map run_seq].
  - cbn. lia.
  - apply Forall_cons in Hpos as [Hpts Hrest]. cbn [fst snd] in Hpts.
    unfold award_call at 1. cbn [fst snd].
    pose proof (stored_total_monotone_one u uid pts action db Hpts) as H1.
    destruct (run (awardPoints u pts action) db) as [o db1]. cbn [snd] in H1.
    specialize (IH db1 uid Hrest).
    destruct (run_seq (map award_call rest) db1) as [os db2]. cbn [snd] in *. lia.
Qed.

Lemma totals_never_decrease_witness :
  let db := mkDB {[ "u" := new_user_row "u" 48 ]} [] in
  let calls := [("u", 5, "weather"); ("v", 10, "search"); ("u", 0, "noop")]%string in
  stored_total db "u" <= stored_total (run_seq (map award_call calls) db).2 "u".
Proof.
  intros db calls. apply (totals_never_decrease calls db "u").
  repeat constructor; cbn; lia.
Defined.

(** ** Awards and progress *)

(** After a successful award [getUserProgress] reports the total that the
    award returned, and the next reward computed from that total. *)
Theorem progress_after_award uid pts action db r db' :
  run (awardPoints uid pts action) db = (Ok r, db') ->
  exists pr,
    run (getUserProgress uid) db' = (Ok pr, db')
    /\ p_points pr = newTotal r
    /\ nextReward pr = getNextReward (newTotal r).
Proof.
  intros Hrun. apply stored_total_after_award in Hrun as [_ ->].
  apply getUserProgress_reads.
Qed.

Lemma progress_after_award_witness :
  let db := mkDB {[ "u" := new_user_row "u" 48 ]} [] in
  exists r db' pr,
    run (awardPoints "u" 5 "weather") db = (Ok r, db')
    /\ run (getUserProgress "u") db' = (Ok pr, db')
    /\ p_points pr = newTotal r
    /\ nextReward pr = getNextReward (newTotal r).
Proof.
  intros db.
  destruct (run (awardPoints "u" 5 "weather") db) as [o db'] eqn:Hrun.
  destruct o as [r | e]; [| vm_compute in Hrun; discriminate Hrun].
  destruct (progress_after_award "u" 5 "weather" db r db' Hrun) as (pr & H1 & H2 & H3).
  exists r, db', pr. auto.
Defined.





Ltac crossed_false :=
  unfold crossed; cbn [points]; rewrite Z.geb_leb;
  apply andb_false_iff;
  first [ left; apply Z.ltb_ge; lia | right; apply Z.leb_gt; lia ].

Ltac crossed_true :=
  unfold crossed; cbn [points]; rewrite Z.geb_leb;
  apply andb_true_iff; split; [apply Z.ltb_lt; lia | apply Z.leb_le; lia].

(** Below 300 points the next reward that [getNextReward] names is the
    entry an award of exactly [pointsNeeded] points crosses, and an
    award of fewer points crosses no threshold at all: the table of
    [getNextReward] and the table of [checkUnlockedRewards] agree. *)
Theorem next_reward_is_the_next_crossing p :
  p < 300 ->
  exists reward,
    reward ∈ rewardThresholds
    /\ reward_name reward = nr_name (getNextReward p)
    /\ crossed p (p + pointsNeeded (getNextReward p)) reward = true
    /\ forall k r', k < pointsNeeded (getNextReward p) ->
                    r' ∈ rewardThresholds -> crossed p (p + k) r' = false.
Proof.
  intros Hp. rewrite getNextReward_cases.
  destruct (Z.ltb_spec p 50); [| destruct (Z.ltb_spec p 100);
    [| destruct (Z.ltb_spec p 200); [| destruct (Z.ltb_spec p 300); [| lia]]]];
    cbn [nr_name pointsNeeded].
  - exists (mkReward 50 "restaurant_recommendations" "Restaurant Finder").
    split; [apply rewardThresholds_elem; tauto |]. split; [done |].
    split; [crossed_true |].
    intros k r' Hk Hr'.
    apply rewardThresholds_elem in Hr' as [-> | [-> | [-> | ->]]]; crossed_false.
  - exists (mkReward 100 "hidden_gems" "Hidden Gems Discovery").
    split; [apply rewardThresholds_elem; tauto |]. split; [done |].
    split; [crossed_true |].
    intros k r' Hk Hr'.
    apply rewardThresholds_elem in Hr' as [-> | [-> | [-> | ->]]]; crossed_false.
  - exists (mkReward 200 "food_specialties" "Local Food Specialties").
    split; [apply rewardThresholds_elem; tauto |]. split; [done |].
    split; [crossed_true |].
    intros k r' Hk Hr'.
    apply rewardThresholds_elem in Hr' as [-> | [-> | [-> | ->]]]; crossed_false.
  - exists (mkReward 300 "photography_spots" "Photography Spots").
    split; [apply rewardThresholds_elem; tauto |]. split; [done |].
    split; [crossed_true |].
    intros k r' Hk Hr'.
    apply rewardThresholds_elem in Hr' as [-> | [-> | [-> | ->]]]; crossed_false.
Qed.

Lemma next_reward_is_the_next_crossing_witness :
  exists reward,
    reward ∈ rewardThresholds
    /\ reward_name reward = nr_name (getNextReward 120)
    /\ crossed 120 (120 + pointsNeeded (getNextReward 120)) reward = true
    /\ forall k r', k < pointsNeeded (getNextReward 120) ->
                    r' ∈ rewardThresholds -> crossed 120 (120 + k) r' = false.
Proof. apply (next_reward_is_the_next_crossing 120). lia. Defined.

(** ** [ensureUserExists] *)

Lemma run_ensureUserExists uid db :
  run (ensureUserExists uid) db
  = match users db !! uid with
    | Some row => (Ok (existingUser row), db)
    | None =>
        if email_taken (uid +:+ "@example.com") (users db) then
          (Err ("Failed to ensure user exists: "
                  +:+ failed_insert_users uid (ensured_row uid)), db)
        else
          (Ok (createdUser uid),
           mkDB (<[uid := ensured_row uid]> (users db)) (achievements db))
    end.
Proof.
  unfold ensureUserExists.
  rewrite run_try_catch, run_bind, run_await. cbn [exec].
  destruct (users db !! uid) as [row |] eqn:Hrow; [reflexivity |].
  rewrite run_bind, run_await. cbn [exec email]. rewrite Hrow.
  rewrite bool_decide_eq_false_2 by (intros [? ?]; discriminate).
  by destruct (email_taken _ _).
Qed.

Lemma ledger_after_ensureUserExists uid uid' db :
  stored_total (run (ensureUserExists uid) db).2 uid' = stored_total db uid'
  /\ achievements (run (ensureUserExists uid) db).2 = achievements db.
Proof.
  rewrite run_ensureUserExists.
  destruct (users db !! uid) as [row |] eqn:Hrow; [done |].
  destruct (email_taken _ _); [done |]. cbn [snd achievements]. split; [| done].
  unfold stored_total. cbn [users].
  destruct (decide (uid' = uid)) as [-> | Hne].
  - by rewrite lookup_insert_eq, Hrow.
  - by rewrite lookup_insert_ne.
Qed.

(** [ensureUserExists] never changes the ledger: the stored total of
    every user and the achievements table are the same after the call,
    whether it found the user, created the user or failed. *)
Theorem ensureUserExists_keeps_the_ledger uid uid' db :
  stored_total (run (ensureUserExists uid) db).2 uid' = stored_total db uid'
  /\ achievements (run (ensureUserExists uid) db).2 = achievements db.
Proof.
  rewrite run_ensureUserExists.
  destruct (users db !! uid) as [row |] eqn:Hrow; [done |].
  destruct (email_taken _ _); [done |]. cbn [snd achievements]. split; [| done].
  unfold stored_total. cbn [users].
  destruct (decide (uid' = uid)) as [-> | Hne].
  - by rewrite lookup_insert_eq, Hrow.
  - by rewrite lookup_insert_ne.
Qed.

(** A second [ensureUserExists] for the same user writes nothing, and
    it succeeds whenever the first one did. *)
Theorem ensureUserExists_twice uid db :
  let first := run (ensureUserExists uid) db in
  let second := run (ensureUserExists uid) first.2 in
  second.2 = first.2
  /\ (succeeded first.1 = true -> succeeded second.1 = true).
Proof.
  cbv zeta. rewrite (run_ensureUserExists uid db).
  destruct (users db !! uid) as [row |] eqn:Hrow.
  - cbn [fst snd]. rewrite run_ensureUserExists, Hrow. done.
  - destruct (email_taken _ _) eqn:Hmail; cbn [fst snd].
    + rewrite run_ensureUserExists, Hrow, Hmail. done.
    + rewrite run_ensureUserExists. cbn [users]. rewrite lookup_insert_eq. done.
Qed.

Lemma ensureUserExists_twice_witness :
  let first := run (ensureUserExists "alice") (mkDB ∅ []) in
  let second := run (ensureUserExists "alice") first.2 in
  second.2 = first.2 /\ succeeded second.1 = true.
Proof.
  destruct (ensureUserExists_twice "alice" (mkDB ∅ [])) as [Hsame Hok].
  split; [exact Hsame | apply Hok; vm_compute; reflexivity].
Defined.

Lemma award_after_ensure uid pts action db e db1 :
  run (ensureUserExists uid) db = (Ok e, db1) ->
  exists r db2,
    run (awardPoints uid pts action) db1 = (Ok r, db2)
    /\ newTotal r = stored_total db uid + pts
    /\ stored_total db2 uid = newTotal r
    /\ stored_level db2 uid = Some (calculateLevel (newTotal r)).
Proof.
  intros Hens.
  assert (exists row, users db1 !! uid = Some row) as [row Hrow].
  { rewrite run_ensureUserExists in Hens.
    destruct (users db !! uid) as [row |] eqn:Hrow.
    - injection Hens as _ <-. eauto.
    - destruct (email_taken _ _); [discriminate |]. injection Hens as _ <-.
      cbn [users]. rewrite lookup_insert_eq. eauto. }
  pose proof (ledger_after_ensureUserExists uid uid db) as [Htotal _].
  rewrite Hens in Htotal. cbn [snd] in Htotal.
  pose proof (stored_level_after_update uid pts action db1 row Hrow) as Hlevel.
  destruct (run (awardPoints uid pts action) db1) as [o db2] eqn:Hrun.
  pose proof Hrun as Hrun'.
  rewrite (run_awardPoints_existing _ _ _ _ _ Hrow) in Hrun'.
  destruct o as [r | err]; [| discriminate]. exists r, db2.
  apply stored_total_after_award in Hrun as [Hafter Hnew].
  cbn [snd] in Hlevel. rewrite Hnew, Hlevel, Hafter, Htotal. done.
Qed.

(** After a successful [ensureUserExists], an award to that user always
    succeeds, adds the points to the total the user had, and stores the
    level of the new total: handlers that ensure the user first never
    reach the creation path of [awardPoints]. *)
Theorem award_after_ensureUserExists uid pts action db e db1 :
  run (ensureUserExists uid) db = (Ok e, db1) ->
  exists r db2,
    run (awardPoints uid pts action) db1 = (Ok r, db2)
    /\ newTotal r = stored_total db uid + pts
    /\ stored_total db2 uid = newTotal r
    /\ stored_level db2 uid = Some (calculateLevel (newTotal r)).
Proof.
  intros Hens.
  assert (exists row, users db1 !! uid = Some row) as [row Hrow].
  { rewrite run_ensureUserExists in Hens.
    destruct (users db !! uid) as [row |] eqn:Hrow.
    - injection Hens as _ <-. eauto.
    - destruct (email_taken _ _); [discriminate |]. injection Hens as _ <-.
      cbn [users]. rewrite lookup_insert_eq. eauto. }
  pose proof (ledger_after_ensureUserExists uid uid db) as [Htotal _].
  rewrite Hens in Htotal. cbn [snd] in Htotal.
  pose proof (stored_level_after_update uid pts action db1 row Hrow) as Hlevel.
  destruct (run (awardPoints uid pts action) db1) as [o db2] eqn:Hrun.
  pose proof Hrun as Hrun'.
  rewrite (run_awardPoints_existing _ _ _ _ _ Hrow) in Hrun'.
  destruct o as [r | err]; [| discriminate]. exists r, db2.
  apply stored_total_after_award in Hrun as [Hafter Hnew].
  cbn [snd] in Hlevel. rewrite Hnew, Hlevel, Hafter, Htotal. done.
Qed.

Lemma award_after_ensureUserExists_witness :
  exists e db1 r db2,
    run (ensureUserExists "alice") (mkDB ∅ []) = (Ok e, db1)
    /\ run (awardPoints "alice" 60 "bonus") db1 = (Ok r, db2)
    /\ newTotal r = stored_total (mkDB ∅ []) "alice" + 60
    /\ stored_total db2 "alice" = newTotal r
    /\ stored_level db2 "alice" = Some (calculateLevel (newTotal r)).
Proof.
  destruct (run (ensureUserExists "alice") (mkDB ∅ [])) as [o db1] eqn:Hens.
  destruct o as [e | err]; [| vm_compute in Hens; discriminate Hens].
  destruct (award_after_ensureUserExists "alice" 60 "bonus" (mkDB ∅ []) e db1 Hens)
    as (r & db2 & H1 & H2 & H3 & H4).
  exists e, db1, r, db2. auto.
Defined.

(** ** The two ways to create a user collide *)

Lemma string_length_app (s1 s2 : string) :
  String.length (s1 +:+ s2) = (String.length s1 + String.length s2)%nat.
Proof. induction s1 as [| c s1 IH]; cbn; [done | rewrite <- IH; reflexivity]. Qed.

Lemma user_prefix_ne (x : string) : "user" +:+ x <> x.
Proof.
  intros Heq. apply (f_equal String.length) in Heq.
  rewrite string_length_app in Heq. cbn in Heq. lia.
Qed.

Lemma email_taken_insert e uid row (us : gmap string UserRow) :
  us !! uid = None -> email row = e -> email_taken e (<[uid := row]> us) = true.
Proof.
  intros Hfree Hmail. unfold email_taken. apply existsb_exists.
  exists (uid, row). split.
  - apply list_elem_of_In, elem_of_map_to_list, lookup_insert_eq.
  - by apply bool_decide_eq_true.
Qed.

(** A user x created by the creation path of [awardPoints] holds the
    e-mail address that [ensureUserExists] derives for the user id
    "user" followed by x: that id can then not be created by
    [ensureUserExists], whose insert is rejected: the call fails with
    some error and leaves the database as it is. *)
Theorem awarded_user_blocks_ensureUserExists x pts action db r db1 :
  users db !! x = None ->
  users db !! ("user" +:+ x) = None ->
  run (awardPoints x pts action) db = (Ok r, db1) ->
  exists message, run (ensureUserExists ("user" +:+ x)) db1 = (Err message, db1).
Proof.
  intros Hx Hux. rewrite (run_awardPoints_new _ _ _ _ Hx).
  destruct (email_taken _ _); [discriminate |]. intros [= _ <-].
  rewrite run_ensureUserExists. cbn [users].
  rewrite lookup_insert_ne, Hux by (intros Heq; by apply (user_prefix_ne x)).
  rewrite (email_taken_insert _ _ _ _ Hx) by done. by eexists.
Qed.

Lemma awarded_user_blocks_ensureUserExists_witness :
  exists r db1,
    run (awardPoints "bob" 10 "event_search") (mkDB ∅ []) = (Ok r, db1)
    /\ exists message, run (ensureUserExists "userbob") db1 = (Err message, db1).
Proof.
  destruct (run (awardPoints "bob" 10 "event_search") (mkDB ∅ [])) as [o db1] eqn:Hrun.
  destruct o as [r | err]; [| vm_compute in Hrun; discriminate Hrun].
  exists r, db1. split; [reflexivity |].
  apply (awarded_user_blocks_ensureUserExists "bob" 10 "event_search" (mkDB ∅ []) r db1);
    [reflexivity | reflexivity | exact Hrun].
Defined.

(** The other way round: once [ensureUserExists] has created the user id
    "user" followed by x, the insert of the first award to an unseen
    user x is rejected: the call fails with some error and writes
    nothing. *)
Theorem ensured_user_blocks_first_award x pts action db e db1 :
  users db !! x = None ->
  users db !! ("user" +:+ x) = None ->
  run (ensureUserExists ("user" +:+ x)) db = (Ok e, db1) ->
  exists message, run (awardPoints x pts action) db1 = (Err message, db1).
Proof.
  intros Hx Hux. rewrite run_ensureUserExists, Hux.
  destruct (email_taken _ _); [discriminate |]. intros [= _ <-].
  rewrite run_awardPoints_new.
  - cbn [users]. rewrite (email_taken_insert _ _ _ _ Hux) by done. by eexists.
  - cbn [users]. rewrite lookup_insert_ne; [done |]. apply user_prefix_ne.
Qed.

Lemma ensured_user_blocks_first_award_witness :
  exists e db1,
    run (ensureUserExists "userbob") (mkDB ∅ []) = (Ok e, db1)
    /\ exists message,
         run (awardPoints "bob" 10 "event_search") db1 = (Err message, db1).
Proof.
  destruct (run (ensureUserExists "userbob") (mkDB ∅ [])) as [o db1] eqn:Hrun.
  destruct o as [e | err]; [| vm_compute in Hrun; discriminate Hrun].
  exists e, db1. split; [reflexivity |].
  apply (ensured_user_blocks_first_award "bob" 10 "event_search" (mkDB ∅ []) e db1);
    [reflexivity | reflexivity | exact Hrun].
Defined.

(** ** Calls in flight *)

(** Two first awards to an unseen user that both read before either
    writes: the first insert succeeds; the second insert collides with
    the row just inserted and is rejected, so the second call fails with
    some error, and only the points of the first are stored. *)
Theorem concurrent_first_awards uid p1 p2 a1 a2 db :
  users db !! uid = None ->
  email_taken ("user" +:+ uid +:+ "@example.com") (users db) = false ->
  exists message,
    run_schedule [0; 1; 0; 1]%nat [awardPoints uid p1 a1; awardPoints uid p2 a2] db
    = ([Ret (mkAwardResult p1 0 []); Throw message],
       mkDB (<[uid := new_user_row uid p1]> (users db)) (achievements db)).
Proof.
  intros Hrow Hmail. unfold awardPoints.
  cbn [run_schedule lookup list_lookup insert list_insert step try_catch bind await exec].
  rewrite Hrow.
  cbn [run_schedule lookup list_lookup insert list_insert step try_catch bind await exec
         users email achievements].
  rewrite Hrow, Hmail.
  rewrite (bool_decide_eq_false_2 (is_Some None)) by (intros [? ?]; discriminate).
  cbn [run_schedule lookup list_lookup insert list_insert step try_catch bind await exec
         users email achievements].
  rewrite (email_taken_insert _ uid _ _ Hrow) by done.
  by eexists.
Qed.

Lemma concurrent_first_awards_witness :
  exists message,
    run_schedule [0; 1; 0; 1]%nat
      [awardPoints "n" 7 "a"; awardPoints "n" 9 "b"] (mkDB ∅ [])
    = ([Ret (mkAwardResult 7 0 []); Throw message],
       mkDB (<["n" := new_user_row "n" 7]> ∅) []).
Proof.
  apply (concurrent_first_awards "n" 7 9 "a" "b" (mkDB ∅ [])); reflexivity.
Defined.

(** Two awards to an existing user that both read before either writes:
    after the two writes the stored total is the old total plus the
    points of the second writer only. *)
Theorem concurrent_awards_last_writer_wins uid p1 p2 a1 a2 db row :
  users db !! uid = Some row ->
  stored_total
    (run_schedule [0; 1; 0; 1]%nat [awardPoints uid p1 a1; awardPoints uid p2 a2] db).2
    uid
  = stored_total db uid + p2.
Proof.
  intros Hrow. unfold awardPoints.
  cbn [run_schedule lookup list_lookup insert list_insert step try_catch bind await exec].
  rewrite Hrow.
  cbn [run_schedule lookup list_lookup insert list_insert step try_catch bind await exec
         users achievements snd].
  unfold stored_total. cbn [users]. rewrite !lookup_alter_eq, Hrow.
  cbn [fmap option_fmap option_map set_points totalPoints].
  by rewrite or_else_Some_0.
Qed.

Lemma concurrent_awards_last_writer_wins_witness :
  let db := mkDB {[ "u" := new_user_row "u" 10 ]} [] in
  stored_total
    (run_schedule [0; 1; 0; 1]%nat
       [awardPoints "u" 5 "a"; awardPoints "u" 7 "b"] db).2 "u"
  = stored_total db "u" + 7.
Proof.
  intros db.
  apply (concurrent_awards_last_writer_wins "u" 5 7 "a" "b" db (new_user_row "u" 10)).
  vm_compute. reflexivity.
Defined.

(** ** Thresholds that lie behind *)

Lemma rewardThresholds_type_inj r r' :
  r ∈ rewardThresholds -> r' ∈ rewardThresholds -> type r = type r' -> r = r'.
Proof.
  intros Hr Hr'. apply rewardThresholds_elem in Hr, Hr'.
  destruct Hr as [-> | [-> | [-> | ->]]]; destruct Hr' as [-> | [-> | [-> | ->]]];
    cbn; intros; (reflexivity || discriminate).
Qed.

Lemma records_of_foreign_rows uid u t created :
  u <> uid -> records_of uid t (map (achievement_for u) created) = [].
Proof.
  intros Hne. induction created as [| r l IH]; cbn; [done |].
  rewrite (bool_decide_eq_false_2 (Some u = Some uid)) by congruence. exact IH.
Qed.

Lemma records_of_other_types uid u t created :
  (forall r, r ∈ created -> type r <> t) ->
  records_of uid t (map (achievement_for u) created) = [].
Proof.
  induction created as [| r l IH]; intros Hall; cbn; [done |].
  rewrite (bool_decide_eq_false_2 (type r = t)) by (apply Hall; by left).
  rewrite andb_false_r. apply IH. intros r' Hr'. apply Hall. by right.
Qed.

Lemma award_keeps_records_behind uid u pts action db reward :
  reward ∈ rewardThresholds ->
  points reward <= stored_total db uid ->
  records_of uid (type reward) (achievements (run (awardPoints u pts action) db).2)
  = records_of uid (type reward) (achievements db).
Proof.
  intros Hin Hbehind. destruct (users db !! u) as [row |] eqn:Hrow.
  - rewrite (run_awardPoints_existing _ _ _ _ _ Hrow). cbn [snd achievements].
    rewrite records_of_app. destruct (decide (u = uid)) as [-> | Hne].
    + rewrite records_of_other_types; [apply app_nil_r |].
      intros r Hr Htype. apply newly_elem in Hr as (Hr & Hc & _).
      apply (rewardThresholds_type_inj _ _ Hr Hin) in Htype. subst r.
      unfold stored_total in Hbehind. rewrite Hrow in Hbehind.
      unfold crossed in Hc. apply andb_prop in Hc as [Hc _].
      apply Z.ltb_lt in Hc. lia.
    + by rewrite records_of_foreign_rows, app_nil_r.
  - rewrite (run_awardPoints_new _ _ _ _ Hrow). by destruct (email_taken _ _).
Qed.

(** Once the stored total of a user is at or past the threshold of a
    catalog entry, no award of non-negative points, to that user or to
    any other, creates the achievement record of that entry for the
    user.  A threshold that the first award of a user jumps over (the
    creation path checks no threshold) is therefore never recorded. *)
Theorem threshold_behind_is_never_unlocked calls reward uid :
  forall db,
    reward ∈ rewardThresholds ->
    points reward <= stored_total db uid ->
    Forall (fun c : string * Z * string => 0 <= c.1.2) calls ->
    records_of uid (type reward) (achievements (run_seq (map award_call calls) db).2)
    = records_of uid (type reward) (achievements db).
Proof.
  induction calls as [| [[u pts] action] rest IH]; intros db Hin Hbehind Hpos;
    cbn [map run_seq]; [done |].
  apply Forall_cons in Hpos as [Hpts Hrest]. cbn [fst snd] in Hpts.
  unfold award_call at 1. cbn [fst snd].
  pose proof (award_keeps_records_behind uid u pts action db reward Hin Hbehind) as H1.
  pose proof (stored_total_monotone_one u uid pts action db Hpts) as H2.
  destruct (run (awardPoints u pts action) db) as [o db1]. cbn [snd] in H1, H2.
  specialize (IH db1 Hin ltac:(lia) Hrest).
  destruct (run_seq (map award_call rest) db1) as [os db2]. cbn [snd] in *.
  by rewrite IH.
Qed.

Lemma threshold_behind_is_never_unlocked_witness :
  let db := (run (awardPoints "v" 60 "bonus") (mkDB ∅ [])).2 in
  let calls := [("v", 5, "weather"); ("v", 40, "plan"); ("w", 10, "search")]%string in
  records_of "v" "restaurant_recommendations"
    (achievements (run_seq (map award_call calls) db).2)
  = records_of "v" "restaurant_recommendations" (achievements db).
Proof.
  intros db calls.
  apply (threshold_behind_is_never_unlocked calls
           (mkReward 50 "restaurant_recommendations" "Restaurant Finder") "v" db).
  - apply rewardThresholds_elem. tauto.
  - vm_compute. discriminate.
  - repeat constructor; cbn; lia.
Defined.

(** The user of that witness passes 50 and 100 points and ends with the
    [hidden_gems] record only. *)
Example first_award_of_60_skips_restaurant_finder :
  let db := (run (awardPoints "v" 60 "bonus") (mkDB ∅ [])).2 in
  let calls := [("v", 5, "weather"); ("v", 40, "plan"); ("w", 10, "search")]%string in
  let final := (run_seq (map award_call calls) db).2 in
  stored_total final "v" = 105
  /\ map achievementType (achievements final) = ["hidden_gems"%string].
Proof. vm_compute. split; reflexivity. Qed.

(** ** The handlers of [gamificationTools] *)

Lemma guard_valid uid :
  valid_user_id uid ->
  bool_decide (uid = "") || bool_decide (uid = "anonymous") = false.
Proof. intros [? ?]. by rewrite !bool_decide_eq_false_2. Qed.

Lemma guard_invalid uid :
  ~ valid_user_id uid ->
  bool_decide (uid = "") || bool_decide (uid = "anonymous") = true.
Proof.
  intros Hinv. unfold valid_user_id in Hinv.
  destruct (decide (uid = "")) as [-> | H1]; [done |].
  destruct (decide (uid = "anonymous")) as [-> | H2]; [done |].
  exfalso. by apply Hinv.
Qed.

(** [get_user_progress] never throws and never writes.  For the empty
    user id and for "anonymous" it answers with a failure; for every
    other id it answers with the progress that [getUserProgress] reads,
    whose points are the stored total. *)
Theorem get_user_progress_answers uid db :
  exists resp,
    run (get_user_progress uid) db = (Ok resp, db)
    /\ (~ valid_user_id uid ->
        resp = ProgressFailure "User ID is required to get progress" uid)
    /\ (valid_user_id uid ->
        exists pr, resp = ProgressOk uid pr
                   /\ run (getUserProgress uid) db = (Ok pr, db)
                   /\ p_points pr = stored_total db uid).
Proof.
  unfold get_user_progress.
  destruct (bool_decide (uid = "") || bool_decide (uid = "anonymous")) eqn:Hguard.
  - eexists. split; [reflexivity |]. split; [done |].
    intros Hvalid. by rewrite (guard_valid _ Hvalid) in Hguard.
  - rewrite run_try_catch, run_bind.
    destruct (getUserProgress_reads uid db) as (pr & Hrun & Hpoints & _).
    rewrite Hrun. eexists. split; [reflexivity |]. split.
    + intros Hinv. by rewrite (guard_invalid _ Hinv) in Hguard.
    + intros _. by exists pr.
Qed.

Lemma get_user_progress_answers_witness :
  let db := mkDB {[ "u" := new_user_row "u" 48 ]} [] in
  (exists pr, run (get_user_progress "u") db = (Ok (ProgressOk "u" pr), db)
              /\ p_points pr = stored_total db "u")
  /\ run (get_user_progress "anonymous") db
     = (Ok (ProgressFailure "User ID is required to get progress" "anonymous"), db).
Proof.
  intros db. split.
  - destruct (get_user_progress_answers "u" db) as (resp & Hrun & _ & Hvalid).
    destruct Hvalid as (pr & -> & _ & Hpoints); [split; discriminate |].
    by exists pr.
  - destruct (get_user_progress_answers "anonymous" db) as (resp & Hrun & Hinv & _).
    rewrite Hinv in Hrun; [exact Hrun |]. intros [_ H]. by apply H.
Defined.

Lemma run_unlock_reward uid rewardType db :
  valid_user_id uid ->
  run (unlock_reward uid rewardType) db
  = (Ok (match rewardRequirements rewardType with
         | Some required =>
             if stored_total db uid <? required then
               InsufficientPoints
                 ("Insufficient points. Need " +:+ pretty required
                    +:+ " points, you have " +:+ pretty (stored_total db uid)
                    +:+ " points.")
                 required (stored_total db uid) (required - stored_total db uid)
             else
               Unlocked uid rewardType (generateRewardContent rewardType)
                 (unlocked_message rewardType)
         | None =>
             Unlocked uid rewardType (generateRewardContent rewardType)
               (unlocked_message rewardType)
         end), db).
Proof.
  intros Hvalid. unfold unlock_reward. rewrite (guard_valid _ Hvalid).
  rewrite run_try_catch, run_bind.
  destruct (getUserProgress_reads uid db) as (pr & -> & <- & _).
  destruct (rewardRequirements rewardType) as [required |]; [| reflexivity].
  by destruct (p_points pr <? required).
Qed.

(** [unlock_reward] never throws and never writes, whatever the user id
    and the reward type. *)
Theorem unlock_reward_only_reads uid rewardType db :
  exists resp, run (unlock_reward uid rewardType) db = (Ok resp, db).
Proof.
  destruct (decide (valid_user_id uid)) as [Hvalid | Hinv].
  - rewrite (run_unlock_reward _ _ _ Hvalid). by eexists.
  - unfold unlock_reward. rewrite (guard_invalid _ Hinv). by eexists.
Qed.

(** The answer of [unlock_reward] depends on the users table only: the
    achievement records play no part in it. *)
Theorem unlock_reward_ignores_achievements uid rewardType us rows rows' :
  (run (unlock_reward uid rewardType) (mkDB us rows)).1
  = (run (unlock_reward uid rewardType) (mkDB us rows')).1.
Proof.
  destruct (decide (valid_user_id uid)) as [Hvalid | Hinv].
  - by rewrite !(run_unlock_reward _ _ _ Hvalid).
  - unfold unlock_reward. by rewrite (guard_invalid _ Hinv).
Qed.

(** A reward type outside the catalog is never refused for insufficient
    points: for every valid user id, whatever the points, the handler
    answers with success. *)
Theorem unlock_reward_of_unknown_type uid rewardType db :
  valid_user_id uid ->
  rewardRequirements rewardType = None ->
  exists content message,
    run (unlock_reward uid rewardType) db
    = (Ok (Unlocked uid rewardType content message), db).
Proof.
  intros Hvalid Hnone. rewrite (run_unlock_reward _ _ _ Hvalid), Hnone. by eexists _, _.
Qed.

Lemma unlock_reward_of_unknown_type_witness :
  exists content message,
    run (unlock_reward "u" "free_flights") (mkDB ∅ [])
    = (Ok (Unlocked "u" "free_flights" content message), mkDB ∅ []).
Proof.
  apply (unlock_reward_of_unknown_type "u" "free_flights" (mkDB ∅ []));
    [split; discriminate | reflexivity].
Defined.

(** Whatever a successful award reports as unlocked can be unlocked
    right away: for each catalog entry whose name is in
    [unlockedRewards], [unlock_reward] for the entry's type answers with
    its content. *)
Theorem reported_reward_can_be_unlocked uid pts action db r db' reward :
  valid_user_id uid ->
  run (awardPoints uid pts action) db = (Ok r, db') ->
  reward ∈ rewardThresholds ->
  reward_name reward ∈ unlockedRewards r ->
  run (unlock_reward uid (type reward)) db'
  = (Ok (Unlocked uid (type reward) (generateRewardContent (type reward))
           (unlocked_message (type reward))), db').
Proof.
  intros Hvalid Hrun Hin Hname.
  rewrite (run_unlock_reward _ _ _ Hvalid), (rewardRequirements_catalog _ Hin).
  enough (points reward <= stored_total db' uid) as Hle
    by by rewrite (proj2 (Z.ltb_ge _ _) Hle).
  pose proof (stored_total_after_award _ _ _ _ _ _ Hrun) as [Htotal _].
  destruct (users db !! uid) as [row |] eqn:Hrow.
  - rewrite (run_awardPoints_existing _ _ _ _ _ Hrow) in Hrun.
    set (created := newly _ _ _ _ _) in Hrun.
    assert (forall r', r' ∈ created ->
              r' ∈ rewardThresholds
              /\ crossed (or_else (totalPoints row) 0)
                         (or_else (totalPoints row) 0 + pts) r' = true) as Hcreated.
    { intros r' Hr'. by apply newly_elem in Hr' as (? & ? & _). }
    clearbody created. injection Hrun as <- _. cbn [unlockedRewards] in Hname.
    apply list_elem_of_fmap in Hname as (r' & Heq & Hr').
    apply Hcreated in Hr' as (Hin' & Hc).
    apply (rewardThresholds_name_inj _ _ Hin Hin') in Heq. subst r'.
    unfold crossed in Hc. apply andb_prop in Hc as [_ Hc].
    rewrite Z.geb_leb in Hc. apply Z.leb_le in Hc.
    rewrite Htotal. unfold stored_total. by rewrite Hrow.
  - rewrite (run_awardPoints_new _ _ _ _ Hrow) in Hrun.
    destruct (email_taken _ _); [discriminate |]. injection Hrun as <- _.
    by apply elem_of_nil in Hname.
Qed.

Lemma reported_reward_can_be_unlocked_witness :
  let db := mkDB {[ "u" := new_user_row "u" 48 ]} [] in
  exists r db',
    run (awardPoints "u" 5 "weather") db = (Ok r, db')
    /\ run (unlock_reward "u" "restaurant_recommendations") db'
       = (Ok (Unlocked "u" "restaurant_recommendations"
                (generateRewardContent "restaurant_recommendations")
                (unlocked_message "restaurant_recommendations")), db').
Proof.
  intros db.
  destruct (run (awardPoints "u" 5 "weather") db) as [o db'] eqn:Hrun.
  destruct o as [r | err]; [| vm_compute in Hrun; discriminate Hrun].
  exists r, db'. split; [reflexivity |].
  apply (reported_reward_can_be_unlocked "u" 5 "weather" db r db'
           (mkReward 50 "restaurant_recommendations" "Restaurant Finder")).
  - split; discriminate.
  - exact Hrun.
  - apply rewardThresholds_elem. tauto.
  - vm_compute in Hrun. injection Hrun as <- _. apply list_elem_of_here.
Defined.

(** ** The award block of [get_weather] *)

Lemma run_get_weather_points uid location db :
  valid_user_id uid ->
  run (get_weather_points uid location) db
  = match run (ensureUserExists uid) db with
    | (Ok _, db1) =>
        match run (awardPoints uid 5 ("weather_check_" +:+ location)) db1 with
        | (Ok r, db2) => (Ok (Some (awarded r)), db2)
        | (Err _, db2) =>
            (Ok (Some (notAwarded 0 []
                         "Weather data retrieved, but points could not be awarded. User may need to be created first.")),
             db2)
        end
    | (Err _, db1) =>
        (Ok (Some (notAwarded 0 []
                     "Weather data retrieved, but points could not be awarded. User may need to be created first.")),
         db1)
    end.
Proof.
  intros [H1 H2]. unfold get_weather_points.
  rewrite !bool_decide_eq_false_2 by done. cbn [negb andb].
  rewrite run_try_catch, run_bind.
  destruct (run (ensureUserExists uid) db) as [[e | err] db1]; [| reflexivity].
  rewrite run_bind.
  by destruct (run (awardPoints uid 5 _) db1) as [[r | err] db2].
Qed.

(** The award block of [get_weather] never throws.  For the empty user
    id and for "anonymous" it awards nothing and writes nothing.  For
    every other id it awards 5 points on top of the stored total, unless
    the user has no row and the e-mail address derived from the id is
    taken: then it writes nothing and reports a total of 0 with the
    message that points could not be awarded. *)
Theorem get_weather_points_outcome uid location db :
  (~ valid_user_id uid ->
   run (get_weather_points uid location) db = (Ok None, db))
  /\ (valid_user_id uid ->
      if bool_decide (is_Some (users db !! uid))
         || negb (email_taken (uid +:+ "@example.com") (users db))
      then
        exists r db',
          run (get_weather_points uid location) db = (Ok (Some (awarded r)), db')
          /\ newTotal r = stored_total db uid + 5
          /\ stored_total db' uid = stored_total db uid + 5
      else
        run (get_weather_points uid location) db
        = (Ok (Some (notAwarded 0 []
                       "Weather data retrieved, but points could not be awarded. User may need to be created first.")),
           db)).
Proof.
  split.
  - intros Hinv. unfold get_weather_points.
    destruct (decide (uid = "")) as [-> | H1]; [done |].
    destruct (decide (uid = "anonymous")) as [-> | H2]; [done |].
    exfalso. by apply Hinv.
  - intros Hvalid. rewrite (run_get_weather_points _ _ _ Hvalid).
    destruct (run (ensureUserExists uid) db) as [[e | err] db1] eqn:Hens.
    + assert (bool_decide (is_Some (users db !! uid))
              || negb (email_taken (uid +:+ "@example.com") (users db)) = true) as ->.
      { rewrite run_ensureUserExists in Hens.
        destruct (users db !! uid) as [row |].
        - by rewrite bool_decide_eq_true_2 by eauto.
        - destruct (email_taken _ _); [discriminate | by rewrite orb_true_r]. }
      destruct (award_after_ensure uid 5 ("weather_check_" +:+ location)
                  db e db1 Hens) as (r & db2 & -> & Hnew & Htotal & _).
      exists r, db2. split; [reflexivity |]. by rewrite Htotal.
    + rewrite run_ensureUserExists in Hens.
      destruct (users db !! uid) as [row |]; [discriminate |].
      destruct (email_taken _ _); [| discriminate].
      injection Hens as _ <-.
      rewrite bool_decide_eq_false_2 by (intros [? ?]; discriminate). reflexivity.
Qed.

Lemma get_weather_points_outcome_witness :
  run (get_weather_points "anonymous" "Paris") (mkDB ∅ []) = (Ok None, mkDB ∅ [])
  /\ (exists r db',
        run (get_weather_points "alice" "Paris") (mkDB ∅ [])
        = (Ok (Some (awarded r)), db')
        /\ newTotal r = stored_total (mkDB ∅ []) "alice" + 5
        /\ stored_total db' "alice" = stored_total (mkDB ∅ []) "alice" + 5)
  /\ (let db := (run (awardPoints "bob" 10 "event_search") (mkDB ∅ [])).2 in
      run (get_weather_points "userbob" "Paris") db
      = (Ok (Some (notAwarded 0 []
                     "Weather data retrieved, but points could not be awarded. User may need to be created first.")),
         db)).
Proof.
  split; [| split].
  - apply (get_weather_points_outcome "anonymous" "Paris" (mkDB ∅ [])).
    intros [_ H]. by apply H.
  - destruct (get_weather_points_outcome "alice" "Paris" (mkDB ∅ [])) as [_ H].
    apply H. split; discriminate.
  - intros db.
    destruct (get_weather_points_outcome "userbob" "Paris" db) as [_ H].
    apply H. split; discriminate.
Defined.

Lemma level_below_total n : 50 <= n -> calculateLevel n < n.
Proof.
  intros Hn. unfold calculateLevel.
  assert (n / 50 * 50 <= n) by (pose proof (Z.mul_div_le n 50); lia). lia.
Qed.

(** When an award of the weather block takes a user with a consistent
    level over a level boundary, the [level] text of the answer names
    the new point total, which is larger than the level that is
    stored. *)
Theorem weather_level_up_names_the_total uid location db row :
  valid_user_id uid ->
  users db !! uid = Some row ->
  0 <= stored_total db uid ->
  or_else (level row) 1 = calculateLevel (stored_total db uid) ->
  calculateLevel (stored_total db uid) < calculateLevel (stored_total db uid + 5) ->
  exists r db' g,
    run (get_weather_points uid location) db = (Ok (Some (awarded r)), db')
    /\ get_weather_gamification (Some (awarded r)) = Some g
    /\ g_level g = Some ("Level up! Now level " +:+ pretty (stored_total db' uid))
    /\ stored_level db' uid = Some (calculateLevel (stored_total db' uid))
    /\ calculateLevel (stored_total db' uid) < stored_total db' uid.
Proof.
  intros Hvalid Hrow Hpos Hlevel Hup.
  rewrite (run_get_weather_points _ _ _ Hvalid), run_ensureUserExists, Hrow.
  pose proof (stored_level_after_update uid 5 ("weather_check_" +:+ location) db row Hrow)
    as Hstored.
  destruct (run (awardPoints uid 5 ("weather_check_" +:+ location)) db)
    as [o db'] eqn:Hrun.
  pose proof Hrun as Hrun'.
  rewrite (run_awardPoints_existing _ _ _ _ _ Hrow) in Hrun'.
  destruct o as [r | err]; [| discriminate].
  injection Hrun' as Hr _.
  apply stored_total_after_award in Hrun as [Htotal Hnew].
  cbn [snd] in Hstored.
  assert (levelsGained r
          = calculateLevel (stored_total db uid + 5) - calculateLevel (stored_total db uid))
    as Hgain.
  { rewrite <- Hr. cbn [levelsGained]. rewrite Hlevel.
    unfold stored_total. by rewrite Hrow. }
  eexists r, db', _. split; [reflexivity |]. cbn [get_weather_gamification].
  split; [reflexivity |]. cbn [g_level].
  rewrite bool_decide_eq_false_2 by lia.
  rewrite (proj2 (Z.gtb_gt _ _)) by lia. cbn [negb andb].
  rewrite Hnew. split; [reflexivity |]. split; [exact Hstored |].
  apply level_below_total. rewrite Htotal.
  destruct (Z.le_gt_cases 50 (stored_total db uid + 5)) as [? | Hsmall]; [done |].
  unfold calculateLevel in Hup.
  rewrite (Z.div_small (stored_total db uid + 5)) in Hup by lia.
  assert (0 <= stored_total db uid / 50) by (apply Z.div_pos; lia). lia.
Qed.

Lemma weather_level_up_names_the_total_witness :
  let db := mkDB {[ "u" := new_user_row "u" 48 ]} [] in
  exists r db' g,
    run (get_weather_points "u" "Paris") db = (Ok (Some (awarded r)), db')
    /\ get_weather_gamification (Some (awarded r)) = Some g
    /\ g_level g = Some ("Level up! Now level " +:+ pretty (stored_total db' "u"))
    /\ stored_level db' "u" = Some (calculateLevel (stored_total db' "u"))
    /\ calculateLevel (stored_total db' "u") < stored_total db' "u".
Proof.
  intros db.
  apply (weather_level_up_names_the_total "u" "Paris" db (new_user_row "u" 48)).
  - split; discriminate.
  - vm_compute. reflexivity.
  - vm_compute. discriminate.
  - vm_compute. reflexivity.
  - vm_compute. reflexivity.
Defined.

(** In that witness the answer says "Level up! Now level 53" for a user
    who is stored with level 2. *)
Example weather_level_up_at_53 :
  let out := run (get_weather_points "u" "Paris")
               (mkDB {[ "u" := new_user_row "u" 48 ]} []) in
  let r := mkAwardResult 53 1 ["Restaurant Finder"%string] in
  out.1 = Ok (Some (awarded r))
  /\ get_weather_gamification (Some (awarded r))
     = Some (mkGamification 5 53 (Some "Level up! Now level 53"%string)
               ["Restaurant Finder"%string] None)
  /\ stored_level out.2 "u" = Some 2.
Proof. vm_compute. repeat split. Qed.

(** ** The generated day plans *)

Lemma times_of_generated_day d destination duration interests budget travelStyle :
  times (generateDayPlan d destination duration interests budget travelStyle)
  = (if has_morning interests then ["09:00"%string] else [])
    ++ ["12:30"%string]
    ++ (if has_afternoon interests then ["15:00"%string] else [])
    ++ ["19:00"%string].
Proof.
  unfold times, generateDayPlan, has_morning, has_afternoon. cbn [activities].
  destruct (includes interests "culture"), (includes interests "history"),
    (includes interests "nature"), (includes interests "adventure"),
    (includes interests "shopping"), (includes interests "art"),
    (includes interests "nightlife" && negb (bool_decide (travelStyle = "family")));
    reflexivity.
Qed.

(** The slots of a generated day: lunch at 12:30 and an evening at 19:00
    always; a morning at 09:00 exactly when the interests include
    culture, history, nature or adventure; an afternoon at 15:00 exactly
    when they include shopping, art or adventure; in this order. *)
Theorem generateDayPlan_times d destination duration interests budget travelStyle :
  times (generateDayPlan d destination duration interests budget travelStyle)
  = (if has_morning interests then ["09:00"%string] else [])
    ++ ["12:30"%string]
    ++ (if has_afternoon interests then ["15:00"%string] else [])
    ++ ["19:00"%string].
Proof.
  unfold times, generateDayPlan, has_morning, has_afternoon. cbn [activities].
  destruct (includes interests "culture"), (includes interests "history"),
    (includes interests "nature"), (includes interests "adventure"),
    (includes interests "shopping"), (includes interests "art"),
    (includes interests "nightlife" && negb (bool_decide (travelStyle = "family")));
    reflexivity.
Qed.

(** An activity of type [nightlife] is planned only when the interests
    include nightlife and the travel style is not [family]. *)
Theorem nightlife_is_never_planned_for_families
    d destination duration interests budget travelStyle a :
  a ∈ activities (generateDayPlan d destination duration interests budget travelStyle) ->
  act_type a = "nightlife" ->
  includes interests "nightlife" = true /\ travelStyle <> "family".
Proof.
  unfold generateDayPlan. cbn [activities].
  destruct (includes interests "nightlife") eqn:Hn;
    destruct (bool_decide (travelStyle = "family")) eqn:Hf;
    cbn [andb negb];
    destruct (includes interests "culture" || includes interests "history"),
      (includes interests "nature"), (includes interests "adventure"),
      (includes interests "shopping"), (includes interests "art");
    cbn [app]; rewrite ?elem_of_cons, elem_of_nil;
    intros Hin Htype;
    repeat (destruct Hin as [-> | Hin]; [try discriminate Htype |]);
    try (exfalso; exact Hin);
    (split; [reflexivity | by apply bool_decide_eq_false in Hf]).
Qed.

Lemma nightlife_is_never_planned_for_families_witness :
  let a := mkActivity "19:00" "Evening Entertainment" "3-4 hours" "nightlife"
             "Experience local nightlife and entertainment" in
  includes ["nightlife"%string] "nightlife" = true /\ "solo"%string <> "family"%string.
Proof.
  intros a.
  apply (nightlife_is_never_planned_for_families 2 "Rome, Italy" 3
           ["nightlife"%string] "budget" "solo" a).
  - vm_compute. apply list_elem_of_In. right. left. reflexivity.
  - reflexivity.
Defined.

Lemma generateDayPlan_day d destination duration interests budget travelStyle :
  day (generateDayPlan d destination duration interests budget travelStyle) = d.
Proof. reflexivity. Qed.

Lemma generateDayPlan_theme d destination duration interests budget travelStyle :
  theme (generateDayPlan d destination duration interests budget travelStyle)
  = if d =? 1 then "Arrival & Exploration"
    else if d =? duration then "Final Adventures"
    else "Discover " +:+ trim (before_comma destination).
Proof. reflexivity. Qed.

(** With one of the three budget levels [generateSmartItinerary] plans
    the days 1 to [duration] in order (none when the duration is below
    1).  Day 1 has the theme "Arrival & Exploration", also when it is
    the only day; the theme "Final Adventures" is that of the last day
    of a trip of two days or more, and of no other day. *)
Theorem generateSmartItinerary_days destination duration interests budget travelStyle :
  budgetMultipliers budget <> undefined ->
  exists it,
    generateSmartItinerary destination duration interests budget travelStyle = inr it
    /\ map day (dailyPlan it) = seqZ 1 duration
    /\ forall d, d ∈ dailyPlan it ->
         (day d = 1 -> theme d = "Arrival & Exploration")
         /\ (theme d = "Final Adventures" <-> day d = duration /\ 2 <= duration).
Proof.
  intros Hm.
  assert (exists it,
            generateSmartItinerary destination duration interests budget travelStyle
            = inr it
            /\ dailyPlan it
               = map (fun n => generateDayPlan n destination duration interests budget
                                 travelStyle) (seqZ 1 duration)) as (it & -> & Hplan).
  { unfold generateSmartItinerary, generateBudgetEstimate.
    destruct (budgetMultipliers budget) as [[[[base acc] food] act] | |];
      [by eexists | by eexists | done]. }
  exists it. split; [reflexivity |]. rewrite Hplan. split.
  - rewrite map_map. cbn [day generateDayPlan]. apply map_id.
  - intros d Hd. apply list_elem_of_fmap in Hd as (n & -> & Hn).
    apply elem_of_seqZ in Hn. rewrite generateDayPlan_day, generateDayPlan_theme.
    destruct (Z.eqb_spec n 1) as [-> | Hn1].
    + split; [done |]. split; [discriminate | lia].
    + split; [done |]. destruct (Z.eqb_spec n duration) as [-> | Hnd].
      * split; [lia | done].
      * split; [discriminate | lia].
Qed.

Lemma generateSmartItinerary_days_witness :
  exists it,
    generateSmartItinerary "Paris, France" 1 ["culture"; "food"]%string "mid-range" "solo"
    = inr it
    /\ map day (dailyPlan it) = seqZ 1 1
    /\ forall d, d ∈ dailyPlan it ->
         (day d = 1 -> theme d = "Arrival & Exploration")
         /\ (theme d = "Final Adventures" <-> day d = 1 /\ 2 <= 1).
Proof.
  apply (generateSmartItinerary_days "Paris, France" 1 ["culture"; "food"]%string
           "mid-range" "solo").
  vm_compute. discriminate.
Defined.

(** A budget level that is neither one of the three of the table nor a
    property name of [Object.prototype] makes [generateSmartItinerary]
    throw, whatever the other arguments. *)
Theorem generateSmartItinerary_unknown_budget
    destination duration interests budget travelStyle :
  budget ∉ ["budget"; "mid-range"; "luxury"]%string ->
  budget ∉ object_prototype_keys ->
  generateSmartItinerary destination duration interests budget travelStyle
  = inl "Cannot read properties of undefined (reading 'base')"%string.
Proof.
  intros Hbudget Hproto.
  assert (budgetMultipliers budget = undefined) as Hm.
  { unfold budgetMultipliers, includes.
    rewrite !bool_decide_eq_false_2; [done | done | ..];
      intros ->; apply Hbudget; set_solver. }
  unfold generateSmartItinerary, generateBudgetEstimate. by rewrite Hm.
Qed.

Lemma generateSmartItinerary_unknown_budget_witness :
  generateSmartItinerary "Paris, France" 3 ["food"%string] "cheap" "solo"
  = inl "Cannot read properties of undefined (reading 'base')"%string.
Proof.
  apply (generateSmartItinerary_unknown_budget "Paris, France" 3 ["food"%string]
           "cheap" "solo");
    apply (bool_decide_unpack _); vm_compute; exact I.
Defined.

(** For a trip of at least one day the four parts of the budget
    breakdown add up to more than the total estimate, for every budget
    level and travel style. *)
Theorem budget_breakdown_exceeds_total duration budget travelStyle e :
  1 <= duration ->
  generateBudgetEstimate duration budget travelStyle = estimateOf e ->
  totalEstimate e
  < b_accommodation (breakdown e) + b_food (breakdown e)
    + b_activities (breakdown e) + b_transportation (breakdown e).
Proof.
  intros Hd. unfold generateBudgetEstimate, budgetMultipliers, round_by_style.
  repeat case_bool_decide; try (destruct (includes _ _)); intros [= <-];
    cbn [totalEstimate breakdown b_accommodation b_food b_activities b_transportation];
    Z.div_mod_to_equations; lia.
Qed.

Lemma budget_breakdown_exceeds_total_witness :
  exists e,
    generateBudgetEstimate 3 "budget" "solo" = estimateOf e
    /\ totalEstimate e
       < b_accommodation (breakdown e) + b_food (breakdown e)
         + b_activities (breakdown e) + b_transportation (breakdown e).
Proof.
  eexists. split; [reflexivity |].
  apply (budget_breakdown_exceeds_total 3 "budget" "solo"); [lia | reflexivity].
Defined.

(** ** Optimising a plan *)

Section OptimizeFacts.

Context (localeCompare : string -> string -> Z).

Lemma length_sort_insert x sorted :
  length (sort_insert localeCompare x sorted) = S (length sorted).
Proof.
  induction sorted as [| y rest IH]; cbn; [done |].
  destruct (_ <? 0); cbn; [done | by rewrite IH].
Qed.

Lemma length_sort_by_time l :
  length (sort_by_time localeCompare l) = length l.
Proof.
  unfold sort_by_time.
  enough (forall acc, length (foldl (fun sorted x => sort_insert localeCompare x sorted)
                                 acc l) = (length acc + length l)%nat) as H
    by (rewrite H; reflexivity).
  induction l as [| x l IH]; intros acc; cbn; [lia |].
  rewrite IH, length_sort_insert. lia.
Qed.

(** Whatever the goal, [optimizeActivities] returns the same days in
    the same order; each day keeps its number of activities, except
    under the goal [maximize_experiences], which adds exactly one. *)
Theorem optimizeActivities_keeps_the_days plan goal :
  map day (optimizeActivities localeCompare plan goal) = map day plan
  /\ map (fun d => length (activities d)) (optimizeActivities localeCompare plan goal)
     = map (fun d => (length (activities d)
                      + if bool_decide (goal = "maximize_experiences") then 1 else 0)%nat)
           plan.
Proof.
  unfold optimizeActivities.
  destruct (bool_decide (goal = "minimize_travel_time")) eqn:H1.
  { apply bool_decide_eq_true in H1 as ->.
    rewrite bool_decide_eq_false_2 by discriminate.
    rewrite !map_map. cbn [day activities]. split; [done |].
    apply map_ext. intros d. rewrite length_sort_by_time. lia. }
  destruct (bool_decide (goal = "maximize_experiences")) eqn:H2.
  { rewrite !map_map. cbn [day activities]. split; [done |].
    apply map_ext. intros d. rewrite length_app. reflexivity. }
  destruct (bool_decide (goal = "reduce_costs")) eqn:H3.
  { rewrite !map_map. cbn [day activities]. split; [done |].
    apply map_ext. intros d. rewrite length_map. lia. }
  destruct (bool_decide (goal = "balance_activities")) eqn:H4.
  { rewrite !map_map. cbn [day activities]. split; [done |].
    apply map_ext. intros d. lia. }
  split; [done |]. apply map_ext. intros d. lia.
Qed.

(** Under [maximize_experiences] the added activity at 16:00 is put
    after the evening activity at 19:00: a generated day is no longer in
    the order of its times. *)
Theorem maximize_experiences_adds_after_the_evening
    d destination duration interests budget travelStyle :
  exists d' earlier,
    optimizeActivities localeCompare
      [generateDayPlan d destination duration interests budget travelStyle]
      "maximize_experiences" = [d']
    /\ times d' = earlier ++ ["19:00"; "16:00"]%string.
Proof.
  unfold optimizeActivities.
  rewrite bool_decide_eq_false_2 by discriminate.
  rewrite bool_decide_eq_true_2 by reflexivity.
  cbn [map]. eexists _, _. split; [reflexivity |].
  unfold times at 1. cbn [activities]. rewrite map_app. cbn [map act_time].
  fold (times (generateDayPlan d destination duration interests budget travelStyle)).
  rewrite times_of_generated_day, !app_assoc, <- app_assoc. reflexivity.
Qed.

End OptimizeFacts.
